(** * hvadvilduhelst: the dataset loader and the hub upload, verified

    A shallow embedding of [src/hvadvilduhelst/load_hygdk.py] and
    [src/hvadvilduhelst/upload_to_huggingface.py], and of parts of
    [scripts/probe_dataset.py]: the loading step of [main] and the two
    checks [analyze_dataset_structure] and [detect_quality_issues].

    Conventions of the embedding.
    - A Python [str] is a Rocq [string] holding the text in UTF-8: the loader
      opens every file with [encoding='utf-8'], and every character the JSON
      decoder looks at (quotes, braces, digits, white space) is ASCII, so the
      bytes of any other character pass through the decoder unchanged.
    - A Python exception is a value of [exception]; code that may raise
      returns a [result].
    - The file system is a finite map from path strings to nodes; a
      directory node lists its entries in the order [os.scandir] yields them.
    - The library functions the loader calls ([json.loads], [Path.glob],
      [Path.stem], [open] and line iteration) are transcribed from CPython
      3.11 ([json/decoder.py], [json/scanner.py], [pathlib.py]).  Where the
      pure-Python decoder and the C accelerator that CPython runs by default
      differ (which characters count as digits and hexadecimal digits), the
      model follows the accelerator.  Resource limits of the interpreter
      (recursion depth, the digit limit of [int], memory) are not
      modelled. *)

From Stdlib Require Import Ascii String.
From stdpp Require Import gmap strings list fin_maps.
From stdpp Require Import sorting.

Set Warnings "-register-all".
Local Open Scope string_scope.
Local Open Scope nat_scope.

(** ** Exceptions and results *)

Inductive exception :=
| JSONDecodeError (msg : string)
| KeyError (key : string)
| TypeError (msg : string)
| ValueError (msg : string)
| IsADirectoryError (name : string)
| FileNotFoundError (name : string)
| UnicodeDecodeError
| StopIteration        (* the scanner's "no value starts here" signal *)
| RecursionError.      (* the decoder ran out of fuel; see [json_loads_fuel] *)

Inductive result (A : Type) :=
| Ok (a : A)
| Raise (e : exception).
Arguments Ok {A} a.
Arguments Raise {A} e.

#[global] Instance result_ret : MRet result := fun A a => Ok a.
#[global] Instance result_bind : MBind result := fun A B f r =>
  match r with
  | Ok a => f a
  | Raise e => Raise e
  end.
#[global] Instance result_fmap : FMap result := fun A B f r =>
  match r with
  | Ok a => Ok (f a)
  | Raise e => Raise e
  end.

Definition is_Ok {A} (r : result A) : Prop := ∃ a, r = Ok a.
Definition is_Raise {A} (r : result A) : Prop := ∃ e, r = Raise e.

(** ** Characters *)

Module Char.

Definition quote : ascii := "034"%char.
Definition backslash : ascii := "092"%char.
Definition tab : ascii := "009"%char.
Definition lf : ascii := "010"%char.
Definition cr : ascii := "013"%char.

Definition code (c : ascii) : N := N_of_ascii c.

(** [WHITESPACE_STR = ' \t\n\r'] of json/decoder.py. *)
Definition is_json_ws (c : ascii) : bool :=
  Ascii.eqb c " " || Ascii.eqb c tab || Ascii.eqb c lf || Ascii.eqb c cr.

(** [str.isspace] on the ASCII range: space, \t \n \v \f \r and the four
    separators 0x1c..0x1f. *)
Definition is_space (c : ascii) : bool :=
  let n := code c in
  ((n =? 32) || ((9 <=? n) && (n <=? 13)) || ((28 <=? n) && (n <=? 31)))%N.

Definition is_digit (c : ascii) : bool :=
  let n := code c in ((48 <=? n) && (n <=? 57))%N.

Definition is_digit19 (c : ascii) : bool :=
  let n := code c in ((49 <=? n) && (n <=? 57))%N.

Definition digit_value (c : ascii) : Z := (Z.of_N (code c) - 48)%Z.

(** One hexadecimal digit, as the C scanner of [_json] reads it. *)
Definition hex_value (c : ascii) : option N :=
  let n := code c in
  if ((48 <=? n) && (n <=? 57))%N then Some (n - 48)%N
  else if ((97 <=? n) && (n <=? 102))%N then Some (n - 87)%N
  else if ((65 <=? n) && (n <=? 70))%N then Some (n - 55)%N
  else None.

Definition of_code (n : N) : ascii := ascii_of_N n.

End Char.

(** ** Text *)

Module Text.

(** [WHITESPACE.match(s, end).end()]: the text after its leading JSON
    white space. *)
Fixpoint skip_ws (s : string) : string :=
  match s with
  | String c rest => if Char.is_json_ws c then skip_ws rest else s
  | EmptyString => s
  end.

(** [s.startswith(p)] together with the text after the prefix. *)
Fixpoint strip_prefix (p s : string) : option string :=
  match p, s with
  | EmptyString, _ => Some s
  | String a p', String b s' => if Ascii.eqb a b then strip_prefix p' s' else None
  | String _ _, EmptyString => None
  end.

(** [s.endswith(p)]. *)
Fixpoint ends_with (p s : string) : bool :=
  match s with
  | EmptyString => String.eqb p EmptyString
  | String _ s' => String.eqb p s || ends_with p s'
  end.

(** [name.rfind('.')], [None] for -1. *)
Fixpoint rfind_dot (s : string) : option nat :=
  match s with
  | EmptyString => None
  | String c s' =>
      match rfind_dot s' with
      | Some i => Some (S i)
      | None => if Ascii.eqb c "." then Some 0%nat else None
      end
  end.

(** [s[:n]]. *)
Fixpoint take (n : nat) (s : string) : string :=
  match n, s with
  | S n', String c s' => String c (take n' s')
  | _, _ => EmptyString
  end.

(** [chr(n)] in UTF-8.  A lone surrogate, which Python keeps in a [str],
    takes the three-byte form of its code point. *)
Definition chr (n : N) : string :=
  (if n <? 128 then String (Char.of_code n) EmptyString
   else if n <? 2048 then
     String (Char.of_code (192 + n / 64))
       (String (Char.of_code (128 + n mod 64)) EmptyString)
   else if n <? 65536 then
     String (Char.of_code (224 + n / 4096))
       (String (Char.of_code (128 + (n / 64) mod 64))
          (String (Char.of_code (128 + n mod 64)) EmptyString))
   else
     String (Char.of_code (240 + n / 262144))
       (String (Char.of_code (128 + (n / 4096) mod 64))
          (String (Char.of_code (128 + (n / 64) mod 64))
             (String (Char.of_code (128 + n mod 64)) EmptyString))))%N.

End Text.

(** ** Reading a text file

    [open(file_path, 'r', encoding='utf-8')] followed by [for line in f]:
    the bytes are decoded as strict UTF-8, newlines are translated
    ([newline=None]: "\r\n" and "\r" become "\n"), and the text is cut
    after every "\n", each line keeping its terminator. *)

Module TextIO.

Definition is_cont (n : N) : bool := ((128 <=? n) && (n <=? 191))%N.

(** The strict UTF-8 decoder accepts exactly the well-formed sequences of
    the Unicode standard (no overlong forms, no surrogates, nothing above
    U+10FFFF). *)
Fixpoint utf8_valid (s : string) : bool :=
  match s with
  | EmptyString => true
  | String b0 s1 =>
      let n0 := Char.code b0 in
      if (n0 <? 128)%N then utf8_valid s1
      else if ((194 <=? n0) && (n0 <=? 223))%N then
        match s1 with
        | String b1 s2 => is_cont (Char.code b1) && utf8_valid s2
        | _ => false
        end
      else if ((224 <=? n0) && (n0 <=? 239))%N then
        match s1 with
        | String b1 (String b2 s3) =>
            let n1 := Char.code b1 in
            ((if (n0 =? 224)%N then (160 <=? n1) && (n1 <=? 191)
              else if (n0 =? 237)%N then (128 <=? n1) && (n1 <=? 159)
              else is_cont n1)%N)
            && is_cont (Char.code b2) && utf8_valid s3
        | _ => false
        end
      else if ((240 <=? n0) && (n0 <=? 244))%N then
        match s1 with
        | String b1 (String b2 (String b3 s4)) =>
            let n1 := Char.code b1 in
            ((if (n0 =? 240)%N then (144 <=? n1) && (n1 <=? 191)
              else if (n0 =? 244)%N then (128 <=? n1) && (n1 <=? 143)
              else is_cont n1)%N)
            && is_cont (Char.code b2) && is_cont (Char.code b3) && utf8_valid s4
        | _ => false
        end
      else false
  end.

(** Universal newlines: "\r\n" and a lone "\r" are read as "\n". *)
Fixpoint translate_newlines (s : string) : string :=
  match s with
  | EmptyString => EmptyString
  | String c rest =>
      if Ascii.eqb c Char.cr then
        match rest with
        | String c' _ =>
            if Ascii.eqb c' Char.lf then translate_newlines rest
            else String Char.lf (translate_newlines rest)
        | EmptyString => String Char.lf EmptyString
        end
      else String c (translate_newlines rest)
  end.

(** The lines of a text, terminators kept; a text that ends in "\n" has no
    empty last line. *)
Fixpoint split_lines (s : string) : list string :=
  match s with
  | EmptyString => []
  | String c rest =>
      if Ascii.eqb c Char.lf then String c EmptyString :: split_lines rest
      else
        match split_lines rest with
        | [] => [String c EmptyString]
        | l :: ls => String c l :: ls
        end
  end.

(** All lines of a file opened for reading as UTF-8 text.  A file that is
    not UTF-8 raises before any of its lines is handed out; CPython decodes
    chunk by chunk and may hand out the lines of earlier chunks first.  The
    two agree on whether the iteration raises; every theorem below that
    names the exception of a run assumes files that decode. *)
Definition readlines (bytes : string) : result (list string) :=
  if utf8_valid bytes then Ok (split_lines (translate_newlines bytes))
  else Raise UnicodeDecodeError.

End TextIO.

(** ** JSON values, as Python objects

    [dict], [list], [str], [int], [float], [bool] and [None].  A [float] is
    kept as the lexeme it was read from. *)

Inductive json :=
| JNull
| JBool (b : bool)
| JInt (z : Z)
| JFloat (lexeme : string)
| JString (s : string)
| JArray (items : list json)
| JObject (members : gmap string json).

(** ** The JSON decoder ([json.loads]) *)

Module Json.

Definition err {A} (msg : string) : result A := Raise (JSONDecodeError msg).

(** The digits at the head of the text and what follows them. *)
Fixpoint span_digits (s : string) : string * string :=
  match s with
  | String c rest =>
      if Char.is_digit c then
        let '(ds, r) := span_digits rest in (String c ds, r)
      else (EmptyString, s)
  | EmptyString => (EmptyString, EmptyString)
  end.

(** [int(digits)] for a text of decimal digits. *)
Definition int_of_digits (ds : string) : Z :=
  fold_left (fun acc c => 10 * acc + Char.digit_value c)%Z
            (list_ascii_of_string ds) 0%Z.

(** Group 1 of [NUMBER_RE]: an optional minus sign, then either 0 or a
    digit 1..9 followed by any number of digits. *)
Definition match_integer (s : string) : option (bool * string * string) :=
  let '(neg, s1) :=
    match s with
    | String c r => if Ascii.eqb c "-" then (true, r) else (false, s)
    | EmptyString => (false, s)
    end in
  match s1 with
  | String c r =>
      if Ascii.eqb c "0" then Some (neg, String c EmptyString, r)
      else if Char.is_digit19 c then
        let '(ds, r') := span_digits r in Some (neg, String c ds, r')
      else None
  | EmptyString => None
  end.

(** Group 2 of [NUMBER_RE]: optionally, a dot followed by one digit or
    more. *)
Definition match_frac (s : string) : string * string :=
  match s with
  | String c (String d r) =>
      if Ascii.eqb c "." && Char.is_digit d then
        let '(ds, r') := span_digits (String d r) in (String c ds, r')
      else (EmptyString, s)
  | _ => (EmptyString, s)
  end.

(** Group 3 of [NUMBER_RE]: optionally, e or E, an optional sign and one
    digit or more. *)
Definition match_exp (s : string) : string * string :=
  match s with
  | String e r =>
      if Ascii.eqb e "e" || Ascii.eqb e "E" then
        let '(sign, r1) :=
          match r with
          | String c r' =>
              if Ascii.eqb c "-" || Ascii.eqb c "+"
              then (String c EmptyString, r') else (EmptyString, r)
          | EmptyString => (EmptyString, r)
          end in
        match span_digits r1 with
        | (EmptyString, _) => (EmptyString, s)
        | (ds, r2) => (String e (sign ++ ds), r2)
        end
      else (EmptyString, s)
  | EmptyString => (EmptyString, s)
  end.

(** [match_number] and the conversion of the match in [_scan_once]. *)
Definition match_number (s : string) : option (json * string) :=
  match match_integer s with
  | None => None
  | Some (neg, integer, s1) =>
      let '(frac, s2) := match_frac s1 in
      let '(exp, s3) := match_exp s2 in
      let sign := if (neg : bool) then "-" else "" in
      if String.eqb frac "" && String.eqb exp "" then
        Some (JInt (if neg then (- int_of_digits integer)%Z else int_of_digits integer), s3)
      else Some (JFloat (sign ++ integer ++ frac ++ exp), s3)
  end.

(** Four hexadecimal digits of a [\uXXXX] escape. *)
Definition hex4 (a b c d : ascii) : option N :=
  x1 ← Char.hex_value a; x2 ← Char.hex_value b;
  x3 ← Char.hex_value c; x4 ← Char.hex_value d;
  Some (((x1 * 16 + x2) * 16 + x3) * 16 + x4)%N.

(** The [BACKSLASH] table. *)
Definition backslash_table (esc : ascii) : option ascii :=
  if Ascii.eqb esc Char.quote then Some Char.quote
  else if Ascii.eqb esc Char.backslash then Some Char.backslash
  else if Ascii.eqb esc "/" then Some "/"%char
  else if Ascii.eqb esc "b" then Some "008"%char
  else if Ascii.eqb esc "f" then Some "012"%char
  else if Ascii.eqb esc "n" then Some Char.lf
  else if Ascii.eqb esc "r" then Some Char.cr
  else if Ascii.eqb esc "t" then Some Char.tab
  else None.

Definition is_high_surrogate (n : N) : bool := ((55296 <=? n) && (n <=? 56319))%N.
Definition is_low_surrogate (n : N) : bool := ((56320 <=? n) && (n <=? 57343))%N.
Definition join_surrogates (hi lo : N) : N :=
  (65536 + ((hi - 55296) * 1024 + (lo - 56320)))%N.

(** [scanstring(s, end, strict=True)]: [s] is the text after the opening
    quote, [chunks] what has been decoded so far; the result is the decoded
    string and the text after the closing quote. *)
Fixpoint scanstring (s : string) (chunks : string) : result (string * string) :=
  match s with
  | EmptyString => err "Unterminated string starting at"
  | String c rest =>
      if Ascii.eqb c Char.quote then Ok (chunks, rest)
      else if (Char.code c <? 32)%N then err "Invalid control character at"
      else if negb (Ascii.eqb c Char.backslash) then
        scanstring rest (chunks ++ String c EmptyString)
      else
        match rest with
        | EmptyString => err "Unterminated string starting at"
        | String esc rest1 =>
            if negb (Ascii.eqb esc "u") then
              match backslash_table esc with
              | Some char => scanstring rest1 (chunks ++ String char EmptyString)
              | None => err "Invalid \escape"
              end
            else
              match rest1 with
              | String h1 (String h2 (String h3 (String h4 rest2))) =>
                  match hex4 h1 h2 h3 h4 with
                  | None => err "Invalid \uXXXX escape"
                  | Some uni =>
                      match rest2 with
                      | String b (String u (String l1 (String l2 (String l3 (String l4 rest3))))) =>
                          if is_high_surrogate uni && Ascii.eqb b Char.backslash
                             && Ascii.eqb u "u" then
                            match hex4 l1 l2 l3 l4 with
                            | None => err "Invalid \uXXXX escape"
                            | Some uni2 =>
                                if is_low_surrogate uni2 then
                                  scanstring rest3
                                    (chunks ++ Text.chr (join_surrogates uni uni2))
                                else scanstring rest2 (chunks ++ Text.chr uni)
                            end
                          else scanstring rest2 (chunks ++ Text.chr uni)
                      | _ => scanstring rest2 (chunks ++ Text.chr uni)
                      end
                  end
              | _ => err "Invalid \uXXXX escape"
              end
        end
  end.

(** The constants of [_scan_once]: a literal at the head of the text. *)
Definition literal (lit : string) (v : json) (s : string) : option (json * string) :=
  rest ← Text.strip_prefix lit s; Some (v, rest).

(** The first alternative that applies, as in an [if]/[elif] chain. *)
Definition or_else {A} (a b : option A) : option A :=
  match a with
  | Some _ => a
  | None => b
  end.

(** What [_scan_once] does when the next character opens neither a string,
    an object nor an array: [null], [true], [false], a number, [NaN],
    [Infinity], [-Infinity], or [StopIteration]. *)
Definition scan_atom (s : string) : result (json * string) :=
  match
    or_else (literal "null" JNull s)
   (or_else (literal "true" (JBool true) s)
   (or_else (literal "false" (JBool false) s)
   (or_else (match_number s)
   (or_else (literal "NaN" (JFloat "NaN") s)
   (or_else (literal "Infinity" (JFloat "Infinity") s)
            (literal "-Infinity" (JFloat "-Infinity") s))))))
  with
  | Some r => Ok r
  | None => Raise StopIteration
  end.

(** [except StopIteration as err: raise JSONDecodeError("Expecting value", ...)]. *)
Definition expecting_value {A} (r : result A) : result A :=
  match r with
  | Raise StopIteration => err "Expecting value"
  | _ => r
  end.

(** [_scan_once], [JSONObject] and [JSONArray].  The text is passed as the
    suffix that starts at the index the Python code holds; every call
    spends one unit of [fuel].

    - [scan_once fuel s]: the value at the head of [s].
    - [object_loop fuel s pairs]: the [while True] loop of [JSONObject], [s]
      being the text after the opening quote of the next key.  [pairs] is
      kept as the dict that [dict(pairs)] builds: a later pair replaces an
      earlier one with the same key.
    - [array_loop fuel s values]: the [while True] loop of [JSONArray], [s]
      being the text at which the next value starts. *)
Fixpoint scan_once (fuel : nat) (s : string) : result (json * string) :=
  match fuel with
  | O => Raise RecursionError
  | S fuel =>
      match s with
      | EmptyString => Raise StopIteration
      | String nextchar rest =>
          if Ascii.eqb nextchar Char.quote then
            '(str, rest') ← scanstring rest ""; Ok (JString str, rest')
          else if Ascii.eqb nextchar "{" then
            match Text.skip_ws rest with
            | String c rest' =>
                if Ascii.eqb c "}" then Ok (JObject ∅, rest')
                else if Ascii.eqb c Char.quote then object_loop fuel rest' ∅
                else err "Expecting property name enclosed in double quotes"
            | EmptyString =>
                err "Expecting property name enclosed in double quotes"
            end
          else if Ascii.eqb nextchar "[" then
            match Text.skip_ws rest with
            | String c rest' =>
                if Ascii.eqb c "]" then Ok (JArray [], rest')
                else array_loop fuel (String c rest') []
            | EmptyString => array_loop fuel EmptyString []
            end
          else scan_atom s
      end
  end
with object_loop (fuel : nat) (s : string) (pairs : gmap string json)
    : result (json * string) :=
  match fuel with
  | O => Raise RecursionError
  | S fuel =>
      '(key, s1) ← scanstring s "";
      match Text.skip_ws s1 with
      | String colon s2 =>
          if Ascii.eqb colon ":" then
            '(value, s3) ← expecting_value (scan_once fuel (Text.skip_ws s2));
            let pairs := <[key := value]> pairs in
            match Text.skip_ws s3 with
            | String nextchar s4 =>
                if Ascii.eqb nextchar "}" then Ok (JObject pairs, s4)
                else if Ascii.eqb nextchar "," then
                  match Text.skip_ws s4 with
                  | String q s5 =>
                      if Ascii.eqb q Char.quote then object_loop fuel s5 pairs
                      else err "Expecting property name enclosed in double quotes"
                  | EmptyString =>
                      err "Expecting property name enclosed in double quotes"
                  end
                else err "Expecting ',' delimiter"
            | EmptyString => err "Expecting ',' delimiter"
            end
          else err "Expecting ':' delimiter"
      | EmptyString => err "Expecting ':' delimiter"
      end
  end
with array_loop (fuel : nat) (s : string) (values : list json)
    : result (json * string) :=
  match fuel with
  | O => Raise RecursionError
  | S fuel =>
      '(value, s1) ← expecting_value (scan_once fuel s);
      let values := (values ++ [value])%list in
      match Text.skip_ws s1 with
      | String nextchar s2 =>
          if Ascii.eqb nextchar "]" then Ok (JArray values, s2)
          else if Ascii.eqb nextchar "," then array_loop fuel (Text.skip_ws s2) values
          else err "Expecting ',' delimiter"
      | EmptyString => err "Expecting ',' delimiter"
      end
  end.

(** Fuel that [decode] never exhausts ([json_loads_fuel]). *)
Definition fuel_for (s : string) : nat := 2 * String.length s + 2.

(** [JSONDecoder.decode]. *)
Definition decode (s : string) : result json :=
  '(obj, rest) ← expecting_value (scan_once (fuel_for s) (Text.skip_ws s));
  match Text.skip_ws rest with
  | EmptyString => Ok obj
  | String _ _ => err "Extra data"
  end.

(** The UTF-8 form of U+FEFF, which [json.loads] refuses at the start. *)
Definition BOM : string :=
  String "239"%char (String "187"%char (String "191"%char EmptyString)).

(** [json.loads(s)] for a [str] argument and no keyword arguments. *)
Definition loads (s : string) : result json :=
  match Text.strip_prefix BOM s with
  | Some _ => err "Unexpected UTF-8 BOM (decode using utf-8-sig)"
  | None => decode s
  end.

End Json.

(** ** The file system *)

Module FS.

(** An entry of a directory listing: a regular file with its bytes, a
    subdirectory, or a symbolic link whose target does not exist. *)
Inductive dirent :=
| RegularFile (bytes : string)
| Subdirectory
| BrokenLink.

(** What a path names: a regular file, or a directory with its entries in
    the order the platform lists them. *)
Inductive node :=
| File (bytes : string)
| Directory (entries : list (string * dirent)).

(** [open(file_path, 'r', encoding='utf-8')]: the bytes the handle reads. *)
Definition open (name : string) (d : dirent) : result string :=
  match d with
  | RegularFile bytes => Ok bytes
  | Subdirectory => Raise (IsADirectoryError name)
  | BrokenLink => Raise (FileNotFoundError name)
  end.

End FS.

(** ** Paths ([pathlib], POSIX flavour) *)

Module Path.

(** [fnmatch] of a file name against the pattern [*.jsonl]: the pattern is
    compiled to a regular expression that must match the whole name, the
    star standing for any text (a leading dot included), the comparison
    case-sensitive. *)
Definition matches_jsonl (name : string) : bool := Text.ends_with ".jsonl" name.

(** [PurePath.stem]: the name without its last suffix. *)
Definition stem (name : string) : string :=
  match Text.rfind_dot name with
  | Some i =>
      if ((0 <? i) && (i <? String.length name - 1))%nat
      then Text.take i name else name
  | None => name
  end.

(** [Path(data_dir).glob("*.jsonl")]: nothing when the path is not a
    directory ([select_from] returns [iter([])]), otherwise the entries of
    the directory whose names match, in listing order. *)
Definition glob_jsonl (fs : gmap string FS.node) (data_dir : string)
    : list (string * FS.dirent) :=
  match fs !! data_dir with
  | Some (FS.Directory entries) => filter (λ e, matches_jsonl e.1) entries
  | Some (FS.File _) | None => []
  end.

End Path.

(** ** The loader ([load_hygdk.py]) *)

(** [data[key]] for a decoded JSON value and a [str] key. *)
Definition getitem (data : json) (key : string) : result json :=
  match data with
  | JObject members =>
      match members !! key with
      | Some v => Ok v
      | None => Raise (KeyError key)
      end
  | JArray _ => Raise (TypeError "list indices must be integers or slices, not str")
  | JString _ => Raise (TypeError "string indices must be integers")
  | JInt _ => Raise (TypeError "'int' object is not subscriptable")
  | JFloat _ => Raise (TypeError "'float' object is not subscriptable")
  | JBool _ => Raise (TypeError "'bool' object is not subscriptable")
  | JNull => Raise (TypeError "'NoneType' object is not subscriptable")
  end.

(** The dict display of lines 28-33; its values are evaluated in order. *)
Definition make_entry (data : json) (category : string) : result (gmap string json) :=
  question ← getitem data "question";
  answer_A ← getitem data "answer_A";
  answer_B ← getitem data "answer_B";
  Ok ({[ "questions" := question;
         "answer_A" := answer_A;
         "answer_B" := answer_B;
         "category" := JString category ]} : gmap string json).

(** The body of [for line in f] (lines 27-34), the value appended. *)
Definition entry_of_line (category line : string) : result (gmap string json) :=
  data ← Json.loads line;
  make_entry data category.

(** [for line in f: ... dataset.append(entry)] (lines 26-34). *)
Fixpoint for_line (category : string) (lines : list string)
    (dataset : list (gmap string json)) : result (list (gmap string json)) :=
  match lines with
  | [] => Ok dataset
  | line :: lines =>
      entry ← entry_of_line category line;
      for_line category lines (dataset ++ [entry])%list
  end.

(** [for file_path in data_path.glob("*.jsonl"): ...] (lines 20-34). *)
Fixpoint for_file_path (files : list (string * FS.dirent))
    (dataset : list (gmap string json)) : result (list (gmap string json)) :=
  match files with
  | [] => Ok dataset
  | (name, d) :: files =>
      let category := Path.stem name in
      f ← FS.open name d;
      lines ← TextIO.readlines f;
      dataset ← for_line category lines dataset;
      for_file_path files dataset
  end.

(** The default value of [data_dir]. *)
Definition default_data_dir : string :=
  "/Users/kasperjunge/gitrepo/datasets/hvadvilduhelst/data/hygdk".

Definition load_hygdk_dataset (fs : gmap string FS.node) (data_dir : string)
    : result (list (gmap string json)) :=
  let dataset := [] in
  for_file_path (Path.glob_jsonl fs data_dir) dataset.

(** ** The caller in [scripts/probe_dataset.py]

    Lines 372-388 of [main]: the data set is loaded from the relative path,
    then, on [FileNotFoundError], from the default path; an empty data set
    is reported and ends the run. *)

Module Probe.

Inductive outcome :=
| Loaded (dataset : list (gmap string json))   (* line 390 is reached *)
| NotFound          (* "Could not find dataset files." and [return] *)
| Empty             (* "Dataset is empty or could not be loaded." *)
| Uncaught (e : exception).

(** [try: ... except FileNotFoundError: handler]. *)
Definition except_FileNotFoundError {A} (body : result A) (handler : outcome)
    (k : A → outcome) : outcome :=
  match body with
  | Ok a => k a
  | Raise (FileNotFoundError _) => handler
  | Raise e => Uncaught e
  end.

Definition after_load (dataset : list (gmap string json)) : outcome :=
  match dataset with
  | [] => Empty
  | _ :: _ => Loaded dataset
  end.

Definition main_load (fs : gmap string FS.node) : outcome :=
  except_FileNotFoundError (load_hygdk_dataset fs "../data/hygdk")
    (except_FileNotFoundError (load_hygdk_dataset fs default_data_dir)
       NotFound after_load)
    after_load.

End Probe.

(** ** The upload ([upload_to_huggingface.py])

    The hosted API is outside the program: [Dataset.from_list] and
    [push_to_hub] are parameters.  A run returns its result together with
    the trace of what it did to the outside world. *)

Module Hub.

Inductive event :=
| PushToHub (repo_id token split : string)   (* the network call *)
| Stdout (text : string).

(** A computation that may raise and that appends to the trace. *)
Definition io (A : Type) : Type := list event → result A * list event.

#[global] Instance io_ret : MRet io := fun A a tr => (Ok a, tr).
#[global] Instance io_bind : MBind io := fun A B f m tr =>
  match m tr with
  | (Ok a, tr') => f a tr'
  | (Raise e, tr') => (Raise e, tr')
  end.

Definition raise {A} (e : exception) : io A := fun tr => (Raise e, tr).
Definition lift {A} (r : result A) : io A := fun tr => (r, tr).
Definition emit (ev : event) : io unit := fun tr => (Ok (), (tr ++ [ev])%list).
Definition run {A} (m : io A) : result A * list event := m [].

(** [os.getenv(name)]. *)
Definition getenv (env : gmap string string) (name : string) : option string :=
  env !! name.

(** The truth value of an [Optional[str]]: [None] and the empty string are
    false. *)
Definition truthy (v : option string) : bool :=
  match v with
  | Some (String _ _) => true
  | Some EmptyString | None => false
  end.

Section Upload.

(** [datasets.Dataset] and the two calls made on it. *)
Variable Dataset : Type.
Variable from_list : list (gmap string json) → result Dataset.
Variable push_to_hub : Dataset → string → string → string → result unit.

(** The local [dataset_dict] of line 35 is never read and is left out. *)
Definition upload_to_huggingface (env : gmap string string)
    (dataset : list (gmap string json)) (split : string) : io unit :=
  let token := getenv env "HUGGINGFACE_TOKEN" in
  let repo_id := getenv env "HUGGINGFACE_REPO_ID" in
  if negb (truthy token) then
    raise (ValueError "HUGGINGFACE_TOKEN environment variable not set")
  else if negb (truthy repo_id) then
    raise (ValueError "HUGGINGFACE_REPO_ID environment variable not set")
  else
    let token := default "" token in
    let repo_id := default "" repo_id in
    hf_dataset ← lift (from_list dataset);
    _ ← emit (PushToHub repo_id token split);
    _ ← lift (push_to_hub hf_dataset repo_id token split);
    emit (Stdout ("Successfully uploaded dataset to " ++ repo_id)).

End Upload.

End Hub.

(** ** The upload script (the [__main__] block of [upload_to_huggingface.py])

    Lines 46-51: the data set is loaded from the default directory and
    handed to [upload_to_huggingface] with the default split. *)

Module UploadScript.

Section Main.

Variable Dataset : Type.
Variable from_list : list (gmap string json) → result Dataset.
Variable push_to_hub : Dataset → string → string → string → result unit.

Definition main (fs : gmap string FS.node) (env : gmap string string) : Hub.io unit :=
  dataset ← Hub.lift (load_hygdk_dataset fs default_data_dir);
  Hub.upload_to_huggingface Dataset from_list push_to_hub env dataset "train".

End Main.

End UploadScript.

(** ** Text, character by character

    [len], [strip] and slicing count characters, not bytes: the functions
    below read a [str] held in UTF-8 one code point at a time. *)

Module Unicode.

(** The code points of a text.  (A byte that starts no well-formed
    sequence, which no [str] holds, is taken as a character of its own.) *)
Fixpoint code_points (s : string) : list N :=
  match s with
  | EmptyString => []
  | String b0 s1 =>
      let n0 := Char.code b0 in
      if (n0 <? 192)%N then n0 :: code_points s1
      else if (n0 <? 224)%N then
        match s1 with
        | String b1 s2 =>
            ((n0 - 192) * 64 + (Char.code b1 - 128))%N :: code_points s2
        | _ => [n0]
        end
      else if (n0 <? 240)%N then
        match s1 with
        | String b1 (String b2 s3) =>
            ((n0 - 224) * 4096 + (Char.code b1 - 128) * 64
             + (Char.code b2 - 128))%N :: code_points s3
        | _ => [n0]
        end
      else
        match s1 with
        | String b1 (String b2 (String b3 s4)) =>
            ((n0 - 240) * 262144 + (Char.code b1 - 128) * 4096
             + (Char.code b2 - 128) * 64 + (Char.code b3 - 128))%N :: code_points s4
        | _ => [n0]
        end
  end.

(** [len(s)]. *)
Definition len (s : string) : nat := length (code_points s).

(** [c.isspace()] for one character (CPython 3.11, Unicode 14). *)
Definition is_space (c : N) : bool :=
  ((9 <=? c) && (c <=? 13) || (28 <=? c) && (c <=? 32) || (c =? 133) || (c =? 160)
   || (c =? 5760) || (8192 <=? c) && (c <=? 8202) || (c =? 8232) || (c =? 8233)
   || (c =? 8239) || (c =? 8287) || (c =? 12288))%N.

(** [not s.strip()]: nothing is left when the white space at both ends is
    removed. *)
Definition strip_is_empty (s : string) : bool := forallb is_space (code_points s).

(** [s[:n]]: the first [n] characters.  A continuation byte belongs to the
    character before it. *)
Fixpoint take (n : nat) (s : string) : string :=
  match s with
  | EmptyString => EmptyString
  | String b rest =>
      if TextIO.is_cont (Char.code b) then String b (take n rest)
      else
        match n with
        | O => EmptyString
        | S n' => String b (take n' rest)
        end
  end.

End Unicode.


(** ** Two checks of [scripts/probe_dataset.py]

    [analyze_dataset_structure] (lines 48-83) counts the records, collects
    the categories and looks for missing fields; [detect_quality_issues]
    (lines 248-301) walks over the data set once, collects five lists of
    suspicious records and prints a report.  The records are the loader's:
    dictionaries whose values are whatever [json.loads] produced, so every
    operation on a value is modelled for every kind of value. *)

Module Checks.

(** The checks raise [AttributeError] besides the loader's exceptions. *)
Inductive error :=
| Builtin (e : exception)
| AttributeError (msg : string).

Inductive py (A : Type) :=
| Return (a : A)
| Throw (e : error).
Arguments Return {A} a.
Arguments Throw {A} e.

#[global] Instance py_ret : MRet py := fun A a => Return a.
#[global] Instance py_bind : MBind py := fun A B f r =>
  match r with
  | Return a => f a
  | Throw e => Throw e
  end.

(** A printed line.  The lines that are formatted from numbers and values
    are kept as their parts:
    - [TotalQuestions n]: "Total Questions: n"
    - [NumberOfCategories n]: "Number of Categories: n"
    - [Categories l]: "Categories: l"
    - [MissingFields s]: "⚠️  Missing Fields Found: s", [s] a set
    - [Found n]: "⚠️  Found n potential quality issues:"
    - [IssueType title n]: an empty line, then "title: n"
    - [IssueEntry idx shown]: "  idx: shown..."
    - [More n]: "  ... and n more" *)
Inductive line :=
| Text (s : string)
| TotalQuestions (n : nat)
| NumberOfCategories (n : nat)
| Categories (sorted_categories : list json)
| MissingFields (fields : gset string)
| Found (total_issues : nat)
| IssueType (title : string) (count : nat)
| IssueEntry (idx : nat) (shown : json)
| More (n : nat).

(** A computation that prints and may raise. *)
Definition io (A : Type) : Type := list line → py A * list line.

#[global] Instance io_ret : MRet io := fun A a out => (Return a, out).
#[global] Instance io_bind : MBind io := fun A B f m out =>
  match m out with
  | (Return a, out') => f a out'
  | (Throw e, out') => (Throw e, out')
  end.

Definition print (l : line) : io unit := fun out => (Return (), (out ++ [l])%list).
Definition lift {A} (r : py A) : io A := fun out => (r, out).
Definition run {A} (m : io A) : py A * list line := m [].

(** ["=" * 60]. *)
Definition rule : string := string_of_list_ascii (repeat "="%char 60).

(** [type(v).__name__]. *)
Definition type_name (v : json) : string :=
  match v with
  | JNull => "NoneType"
  | JBool _ => "bool"
  | JInt _ => "int"
  | JFloat _ => "float"
  | JString _ => "str"
  | JArray _ => "list"
  | JObject _ => "dict"
  end.

(** [item[key]] on a record. *)
Definition subscript (item : gmap string json) (key : string) : py json :=
  match item !! key with
  | Some v => Return v
  | None => Throw (Builtin (KeyError key))
  end.

(** [hash(v)], as far as it matters: a list and a dict have none. *)
Definition hash (v : json) : py unit :=
  match v with
  | JArray _ | JObject _ =>
      Throw (Builtin (TypeError ("unhashable type: '" ++ type_name v ++ "'")))
  | _ => Return ()
  end.

(** [len(v)]. *)
Definition len (v : json) : py nat :=
  match v with
  | JString s => Return (Unicode.len s)
  | JArray items => Return (length items)
  | JObject members => Return (size members)
  | _ => Throw (Builtin (TypeError ("object of type '" ++ type_name v ++ "' has no len()")))
  end.

(** [not v.strip()]. *)
Definition not_strip (v : json) : py bool :=
  match v with
  | JString s => Return (Unicode.strip_is_empty s)
  | _ => Throw (AttributeError ("'" ++ type_name v ++ "' object has no attribute 'strip'"))
  end.

(** [v[:n]]. *)
Definition slice_to (n : nat) (v : json) : py json :=
  match v with
  | JString s => Return (JString (Unicode.take n s))
  | JArray items => Return (JArray (take n items))
  | JObject _ => Throw (Builtin (TypeError "unhashable type: 'slice'"))
  | _ => Throw (Builtin (TypeError ("'" ++ type_name v ++ "' object is not subscriptable")))
  end.

(** [key.replace('_', ' ')]. *)
Fixpoint replace_underscores (s : string) : string :=
  match s with
  | EmptyString => EmptyString
  | String c rest =>
      String (if Ascii.eqb c "_" then " "%char else c) (replace_underscores rest)
  end.

(** [s.title()] for ASCII text: a letter after a letter is put in lower
    case, any other letter in upper case. *)
Definition is_upper (c : ascii) : bool :=
  let n := Char.code c in ((65 <=? n) && (n <=? 90))%N.
Definition is_lower (c : ascii) : bool :=
  let n := Char.code c in ((97 <=? n) && (n <=? 122))%N.
Definition to_upper (c : ascii) : ascii :=
  if is_lower c then Char.of_code (Char.code c - 32) else c.
Definition to_lower (c : ascii) : ascii :=
  if is_upper c then Char.of_code (Char.code c + 32) else c.

Fixpoint title_from (previous_is_cased : bool) (s : string) : string :=
  match s with
  | EmptyString => EmptyString
  | String c rest =>
      if is_upper c || is_lower c then
        String (if previous_is_cased then to_lower c else to_upper c) (title_from true rest)
      else String c (title_from false rest)
  end.

Definition title (s : string) : string := title_from false s.

(** The dictionary [structure_info] of lines 66-72.  The set [categories]
    is held as a list without repetitions; its order means nothing. *)
Record structure_info := {
  total_questions : nat;
  categories : list json;
  num_categories : nat;
  missing_fields : list string;
  required_fields : list string
}.

(** The dictionary [issues] of lines 254-260; its keys are fixed. *)
Record issues := {
  duplicate_questions : list (nat * json);
  very_short_questions : list (nat * json);
  very_long_questions : list (nat * json);
  duplicate_answers : list (nat * json);
  missing_content : list (nat * json)
}.

(** [issues.items()], in the order the keys were inserted. *)
Definition items (i : issues) : list (string * list (nat * json)) :=
  [("duplicate_questions", duplicate_questions i);
   ("very_short_questions", very_short_questions i);
   ("very_long_questions", very_long_questions i);
   ("duplicate_answers", duplicate_answers i);
   ("missing_content", missing_content i)].

Definition no_issues : issues :=
  {| duplicate_questions := []; very_short_questions := []; very_long_questions := [];
     duplicate_answers := []; missing_content := [] |}.

(** What the loop carries from one record to the next: the lists and the
    set [seen_questions], held as a list without repetitions. *)
Record state := {
  found : issues;
  seen_questions : list json
}.

Section Values.

(** [a == b] for two values neither of which is a [str].  It depends on
    the value of a [float], which is kept as its lexeme, and is left
    open. *)
Variable other_eq : json → json → bool.

(** [a == b]: a [str] equals only the same [str]. *)
Definition eq (a b : json) : bool :=
  match a, b with
  | JString s, JString t => String.eqb s t
  | JString _, _ | _, JString _ => false
  | _, _ => other_eq a b
  end.

(** *** [analyze_dataset_structure] *)

(** [s.add(v)] on a set held as a list without repetitions. *)
Definition set_add (v : json) (s : list json) : list json :=
  if existsb (eq v) s then s else (s ++ [v])%list.

(** [set(item['category'] for item in dataset)], record by record. *)
Fixpoint category_set (dataset : list (gmap string json)) (s : list json)
    : py (list json) :=
  match dataset with
  | [] => Return s
  | item :: rest =>
      category ← subscript item "category";
      _ ← hash category;
      category_set rest (set_add category s)
  end.

(** [sorted(values)] when some value is not a [str]: it may raise
    [TypeError], and otherwise orders numbers by value; left open. *)
Variable sorted_other : list json → py (list json).

(** The strings of a list of values that are all of type [str]. *)
Fixpoint strings_of (values : list json) : option (list string) :=
  match values with
  | [] => Some []
  | JString s :: rest => cons s <$> strings_of rest
  | _ :: _ => None
  end.

(** [sorted(values)]: strings are ordered by their code points, which is
    the order of their UTF-8 bytes. *)
Definition sorted (values : list json) : py (list json) :=
  match strings_of values with
  | Some strings => Return (JString <$> merge_sort (λ a b, String.leb a b) strings)
  | None => sorted_other values
  end.

(** Lines 62-64. *)
Fixpoint for_field (item : gmap string json) (fields : list string)
    (missing_fields : list string) : list string :=
  match fields with
  | [] => missing_fields
  | field :: rest =>
      for_field item rest
        (match item !! field with
         | None => (missing_fields ++ [field])%list
         | Some _ => missing_fields
         end)
  end.

(** Lines 61-64. *)
Fixpoint for_checked_item (items : list (gmap string json)) (fields : list string)
    (missing_fields : list string) : list string :=
  match items with
  | [] => missing_fields
  | item :: rest => for_checked_item rest fields (for_field item fields missing_fields)
  end.

Definition analyze_dataset_structure (dataset : list (gmap string json))
    : io structure_info :=
  _ ← print (Text rule);
  _ ← print (Text "DATASET STRUCTURE ANALYSIS");
  _ ← print (Text rule);
  let total_questions := length dataset in
  categories ← lift (category_set dataset []);
  let required_fields := ["questions"; "answer_A"; "answer_B"; "category"] in
  let missing_fields := for_checked_item (take 10 dataset) required_fields [] in
  let structure_info :=
    {| total_questions := total_questions;
       categories := categories;
       num_categories := length categories;
       missing_fields := missing_fields;
       required_fields := required_fields |} in
  _ ← print (TotalQuestions total_questions);
  _ ← print (NumberOfCategories (length categories));
  sorted_categories ← lift (sorted categories);
  _ ← print (Categories sorted_categories);
  _ ← match missing_fields with
      | _ :: _ => print (MissingFields (list_to_set missing_fields))
      | [] => print (Text "✅ All required fields present")
      end;
  mret structure_info.

(** *** [detect_quality_issues] *)

(** One turn of the loop (lines 264-283) on record [i]. *)
Definition check_item (i : nat) (item : gmap string json) (st : state) : py state :=
  question ← subscript item "questions";
  (* lines 267-269 *)
  _ ← hash question;
  let duplicate := existsb (eq question) (seen_questions st) in
  let l1 := if duplicate then [(i, question)] else [] in
  let seen := if duplicate then seen_questions st else question :: seen_questions st in
  (* lines 272-275 *)
  n ← len question;
  let l2 := if n <? 20 then [(i, question)] else [] in
  let l3 := if n <? 20 then [] else if 200 <? n then [(i, question)] else [] in
  (* lines 278-279 *)
  answer_A ← subscript item "answer_A";
  answer_B ← subscript item "answer_B";
  let l4 := if eq answer_A answer_B then [(i, question)] else [] in
  (* lines 282-283: [or] stops at the first operand that is true *)
  missing ←
    (blank ← not_strip question;
     if blank : bool then Return true
     else
       answer_A ← subscript item "answer_A";
       blank ← not_strip answer_A;
       if blank : bool then Return true
       else
         answer_B ← subscript item "answer_B";
         not_strip answer_B);
  let l5 := if missing : bool then [(i, question)] else [] in
  let f := found st in
  Return {| found := {| duplicate_questions := (duplicate_questions f ++ l1)%list;
                        very_short_questions := (very_short_questions f ++ l2)%list;
                        very_long_questions := (very_long_questions f ++ l3)%list;
                        duplicate_answers := (duplicate_answers f ++ l4)%list;
                        missing_content := (missing_content f ++ l5)%list |};
            seen_questions := seen |}.

(** [for i, item in enumerate(dataset)], from index [i] on. *)
Fixpoint for_item (i : nat) (dataset : list (gmap string json)) (st : state) : py state :=
  match dataset with
  | [] => Return st
  | item :: rest =>
      st' ← check_item i item st;
      for_item (S i) rest st'
  end.

(** Lines 296-297: the first three entries of a list. *)
Fixpoint for_entry (entries : list (nat * json)) : io unit :=
  match entries with
  | [] => mret ()
  | (idx, content) :: rest =>
      shown ← lift (slice_to 80 content);
      _ ← print (IssueEntry idx shown);
      for_entry rest
  end.

(** Lines 293-299. *)
Fixpoint for_issue_type (types : list (string * list (nat * json))) : io unit :=
  match types with
  | [] => mret ()
  | (issue_type, issue_list) :: rest =>
      _ ← match issue_list with
          | [] => mret ()
          | _ :: _ =>
              _ ← print (IssueType (title (replace_underscores issue_type))
                                   (length issue_list));
              _ ← for_entry (take 3 issue_list);
              if 3 <? length issue_list then print (More (length issue_list - 3))
              else mret ()
          end;
      for_issue_type rest
  end.

Definition detect_quality_issues (dataset : list (gmap string json)) : io issues :=
  _ ← print (Text (String Char.lf rule));
  _ ← print (Text "QUALITY ASSESSMENT");
  _ ← print (Text rule);
  st ← lift (for_item 0 dataset {| found := no_issues; seen_questions := [] |});
  let issues := found st in
  let total_issues := sum_list (length <$> (items issues).*2) in
  _ ← (if total_issues =? 0 then print (Text "✅ No quality issues detected!")
       else
         _ ← print (Found total_issues);
         for_issue_type (items issues));
  mret issues.

End Values.

End Checks.

(** ** Vocabulary of the properties *)

(** The keys every input line must carry. *)
Definition required_keys : list string := ["question"; "answer_A"; "answer_B"].

(** [isinstance(data, dict) and key in data]. *)
Definition has_key (data : json) (key : string) : bool :=
  match data with
  | JObject members => bool_decide (is_Some (members !! key))
  | _ => false
  end.

(** A well-formed line decodes as JSON, to a value that has the three
    required keys. *)
Definition well_formed_line (line : string) : bool :=
  match Json.loads line with
  | Ok data => forallb (has_key data) required_keys
  | Raise _ => false
  end.


(** The directory entries the loader reads. *)
Definition matched (entries : list (string * FS.dirent)) : list (string * FS.dirent) :=
  filter (λ e, Path.matches_jsonl e.1) entries.

(** An entry that can be read as text: a regular file whose bytes are UTF-8. *)
Definition readable (d : FS.dirent) : bool :=
  match d with
  | FS.RegularFile bytes => TextIO.utf8_valid bytes
  | FS.Subdirectory | FS.BrokenLink => false
  end.

(** The lines [for line in f] hands out for an entry. *)
Definition file_lines (d : FS.dirent) : list string :=
  match d with
  | FS.RegularFile bytes => TextIO.split_lines (TextIO.translate_newlines bytes)
  | FS.Subdirectory | FS.BrokenLink => []
  end.

Definition well_formed_file (d : FS.dirent) : bool :=
  readable d && forallb well_formed_line (file_lines d).

(** A record of the data set. *)
Definition record (question answer_A answer_B : json) (category : string)
    : gmap string json :=
  {[ "questions" := question;
     "answer_A" := answer_A;
     "answer_B" := answer_B;
     "category" := JString category ]}.

(** [r['category'] == category]. *)
Definition has_category (category : string) (r : gmap string json) : bool :=
  match r !! "category" with
  | Some (JString c) => String.eqb c category
  | _ => false
  end.

(** The records of a data set that carry a given category. *)
Definition with_category (category : string) (dataset : list (gmap string json))
    : list (gmap string json) :=
  filter (λ r, has_category category r) dataset.

(** The errors decoding a line and looking up its keys can raise. *)
Definition parse_or_lookup_error (e : exception) : Prop :=
  match e with
  | JSONDecodeError _ | TypeError _ => True
  | KeyError key => key ∈ required_keys
  | _ => False
  end.

(** A text between double quotes. *)
Definition quoted (s : string) : string :=
  String Char.quote (s ++ String Char.quote EmptyString).

(** The line [{"question":q,"answer_A":a,"answer_B":b}], the three values
    given as JSON texts. *)
Definition json_line (q a b : string) : string :=
  "{" ++ quoted "question" ++ ":" ++ q ++ ","
      ++ quoted "answer_A" ++ ":" ++ a ++ ","
      ++ quoted "answer_B" ++ ":" ++ b ++ "}".

(** ** Auxiliary functions of the proofs *)

(** The results of a list of computations run in order: the first
    exception ends the run. *)
Fixpoint collect {A} (rs : list (result A)) : result (list A) :=
  match rs with
  | [] => Ok []
  | r :: rs => a ← r; l ← collect rs; Ok (a :: l)
  end.

(** What one matched entry contributes to the data set. *)
Definition entries_of_file (file : string * FS.dirent)
    : result (list (gmap string json)) :=
  bytes ← FS.open file.1 file.2;
  lines ← TextIO.readlines bytes;
  collect (entry_of_line (Path.stem file.1) <$> lines).

(** A scanner result that is no fuel failure and, when a value, has
    consumed text. *)
Definition consumes (s : string) (res : result (json * string)) : Prop :=
  res ≠ Raise RecursionError ∧
  ∀ v r, res = Ok (v, r) → String.length r < String.length s.

(** The only exceptions the scanner raises. *)
Definition raises_decode_error {A} (res : result A) : Prop :=
  ∀ e, res = Raise e →
    e = StopIteration ∨ e = RecursionError ∨ ∃ msg, e = JSONDecodeError msg.

(** [records] is what the loop body makes of the lines of a readable
    [file], line by line and in order. *)
Definition loaded_from (file : string * FS.dirent)
    (records : list (gmap string json)) : Prop :=
  readable file.2 = true ∧
  Forall2 (λ line r, entry_of_line (Path.stem file.1) line = Ok r)
          (file_lines file.2) records.

(** ** Vocabulary of the further properties *)

(** The exception [open] and the first read raise on an entry that is not
    readable text. *)
Definition open_error (name : string) (d : FS.dirent) : exception :=
  match d with
  | FS.RegularFile _ => UnicodeDecodeError
  | FS.Subdirectory => IsADirectoryError name
  | FS.BrokenLink => FileNotFoundError name
  end.

(** What [json.loads] raises on a text that starts with a byte order mark. *)
Definition BOM_error : exception :=
  JSONDecodeError "Unexpected UTF-8 BOM (decode using utf-8-sig)".




(** ** Vocabulary of the checks *)

(** The question and the two answers of a record, when all three are
    strings. *)
Definition texts (item : gmap string json) : option (string * string * string) :=
  match item !! "questions", item !! "answer_A", item !! "answer_B" with
  | Some (JString q), Some (JString a), Some (JString b) => Some (q, a, b)
  | _, _, _ => None
  end.

Definition question (t : string * string * string) : string := t.1.1.

(** [[(i, question) for i, t in enumerate(ts, start) if P i t]]. *)
Fixpoint flagged_from (start : nat) (P : nat → string * string * string → bool)
    (ts : list (string * string * string)) : list (nat * json) :=
  match ts with
  | [] => []
  | t :: rest =>
      (if P start t then [(start, JString (question t))] else [])
        ++ flagged_from (S start) P rest
  end%list.

Definition flagged := flagged_from 0.

(** The question of record [i] was asked by an earlier record. *)
Definition repeats (ts : list (string * string * string)) (i : nat)
    (t : string * string * string) : bool :=
  bool_decide (question t ∈ question <$> take i ts).

Definition blank (t : string * string * string) : bool :=
  Unicode.strip_is_empty t.1.1 || Unicode.strip_is_empty t.1.2
  || Unicode.strip_is_empty t.2.

(** The five lists, for records of texts. *)
Definition issues_of_texts (ts : list (string * string * string)) : Checks.issues :=
  {| Checks.duplicate_questions := flagged (repeats ts) ts;
     Checks.very_short_questions := flagged (λ _ t, Unicode.len (question t) <? 20) ts;
     Checks.very_long_questions := flagged (λ _ t, 200 <? Unicode.len (question t)) ts;
     Checks.duplicate_answers := flagged (λ _ t, String.eqb t.1.2 t.2) ts;
     Checks.missing_content := flagged (λ _ t, blank t) ts |}.

(** The three lines every run starts with. *)
Definition quality_header : list Checks.line :=
  [Checks.Text (String Char.lf Checks.rule); Checks.Text "QUALITY ASSESSMENT";
   Checks.Text Checks.rule].

(** The sum of the lengths of the five lists. *)
Definition total_issues (i : Checks.issues) : nat :=
  length (Checks.duplicate_questions i) + length (Checks.very_short_questions i)
  + length (Checks.very_long_questions i) + length (Checks.duplicate_answers i)
  + length (Checks.missing_content i).

(** The number of flagged entries a printed line stands for. *)
Definition accounted (l : Checks.line) : nat :=
  match l with
  | Checks.IssueEntry _ _ => 1
  | Checks.More n => n
  | _ => 0
  end.

(** Every entry of a list carries a [str]. *)
Definition strings_only (l : list (nat * json)) : Prop :=
  Forall (λ e, ∃ s, e.2 = JString s) l.

(** The state the loop starts from. *)
Definition initial_state : Checks.state :=
  {| Checks.found := Checks.no_issues; Checks.seen_questions := [] |}.

(** [isinstance(v, str)]. *)
Definition is_str (v : json) : bool :=
  match v with
  | JString _ => true
  | _ => false
  end.



(** The three lines [analyze_dataset_structure] starts with. *)
Definition structure_header : list Checks.line :=
  [Checks.Text Checks.rule; Checks.Text "DATASET STRUCTURE ANALYSIS";
   Checks.Text Checks.rule].

(** The record has the four required fields. *)
Definition complete (item : gmap string json) : bool :=
  forallb (λ field, bool_decide (is_Some (item !! field)))
          ["questions"; "answer_A"; "answer_B"; "category"].

(** Every list of the dictionary carries strings only. *)
Definition all_strings (f : Checks.issues) : Prop :=
  Forall strings_only (Checks.items f).*2.

(** ** Sample inputs *)

Module Sample.

(** The example of the specification: a directory that holds [mad.jsonl]
    with one line. *)
Definition mad_question : string :=
  "Vil du hellere altid spise varm mad eller altid spise kold mad?".

Definition mad_line : string :=
  json_line (quoted mad_question) (quoted "Varm mad") (quoted "Kold mad").

Definition mad_fs : gmap string FS.node :=
  {[ "data" := FS.Directory [("mad.jsonl", FS.RegularFile mad_line)] ]}.

Definition mad_record : gmap string json :=
  record (JString mad_question) (JString "Varm mad") (JString "Kold mad") "mad".

(** The record the specification expects for it, with the key [question]. *)
Definition expected_mad_record : gmap string json :=
  {[ "question" := JString mad_question;
     "answer_A" := JString "Varm mad";
     "answer_B" := JString "Kold mad";
     "category" := JString "mad" ]}.

(** A line whose question is [null]. *)
Definition null_fs : gmap string FS.node :=
  {[ "data" := FS.Directory
       [("x.jsonl", FS.RegularFile (json_line "null" (quoted "a") (quoted "b")))] ]}.

Definition newline : string := String Char.lf EmptyString.

(** [n] well-formed lines, each ended by a newline. *)
Fixpoint good_lines (n : nat) : string :=
  match n with
  | O => EmptyString
  | S n' =>
      json_line (quoted "A eller B?") (quoted "A") (quoted "B") ++ newline
        ++ good_lines n'
  end.

(** [work.jsonl] with 12 lines and [family.jsonl] with 7, beside a file the
    loader ignores; and the same directory listed in another order. *)
Definition work_family : list (string * FS.dirent) :=
  [("work.jsonl", FS.RegularFile (good_lines 12));
   ("notes.txt", FS.RegularFile "not JSON");
   ("family.jsonl", FS.RegularFile (good_lines 7))].

Definition family_work : list (string * FS.dirent) :=
  [("family.jsonl", FS.RegularFile (good_lines 7));
   ("work.jsonl", FS.RegularFile (good_lines 12));
   ("notes.txt", FS.RegularFile "not JSON")].

Definition counts_fs : gmap string FS.node :=
  {[ "data" := FS.Directory work_family ]}.

(** One well-formed line and one line without [answer_B]. *)
Definition missing_key_line : string :=
  "{" ++ quoted "question" ++ ":" ++ quoted "q" ++ ","
      ++ quoted "answer_A" ++ ":" ++ quoted "a" ++ "}".

Definition mixed_entries : list (string * FS.dirent) :=
  [("mixed.jsonl", FS.RegularFile (good_lines 1 ++ missing_key_line ++ newline))].

Definition mixed_fs : gmap string FS.node :=
  {[ "data" := FS.Directory mixed_entries ]}.






(** A directory without any [.jsonl] file. *)
Definition other_entries : list (string * FS.dirent) :=
  [("README.md", FS.RegularFile "# data");
   ("mad.json", FS.RegularFile mad_line);
   ("jsonl", FS.Subdirectory)].

Definition other_fs : gmap string FS.node :=
  {[ "data" := FS.Directory other_entries; "empty" := FS.Directory [] ]}.

(** A file system in which [data] is a regular file. *)
Definition file_fs : gmap string FS.node := {[ "data" := FS.File mad_line ]}.

(** A hub that stores nothing: every push fails. *)
Definition offline (hf : list (gmap string json)) (repo_id token split : string)
    : result unit :=
  Raise (ValueError "connection refused").

Definition env_full : gmap string string :=
  {[ "HUGGINGFACE_TOKEN" := "hf_secret"; "HUGGINGFACE_REPO_ID" := "user/hvadvilduhelst" ]}.

Definition env_no_repo : gmap string string :=
  {[ "HUGGINGFACE_TOKEN" := "hf_secret"; "HUGGINGFACE_REPO_ID" := "" ]}.

(** The example under the default path only: the relative path of the
    probe script does not exist. *)
Definition default_only_fs : gmap string FS.node :=
  {[ default_data_dir := FS.Directory [("mad.jsonl", FS.RegularFile mad_line)] ]}.

(** A directory with a dangling symbolic link, under both paths the probe
    script tries. *)
Definition broken_entries : list (string * FS.dirent) :=
  [("mad.jsonl", FS.RegularFile mad_line); ("old.jsonl", FS.BrokenLink)].

Definition broken_fs : gmap string FS.node :=
  {[ "../data/hygdk" := FS.Directory broken_entries;
     default_data_dir := FS.Directory broken_entries ]}.

(** A directory with a subdirectory whose name matches the pattern. *)
Definition archive_entries : list (string * FS.dirent) :=
  [("README.md", FS.RegularFile "x"); ("archive.jsonl", FS.Subdirectory);
   ("mad.jsonl", FS.RegularFile mad_line)].

(** Entries the pattern does not match. *)
Definition unmatched_entries : list (string * FS.dirent) :=
  [("MAD.JSONL", FS.RegularFile "not JSON"); ("mad.jsonl.bak", FS.Subdirectory);
   ("old", FS.BrokenLink)].

(** The order of values other than strings, for the examples: the list is
    left as it is. *)
Definition unsorted (values : list json) : Checks.py (list json) := Checks.Return values.

(** Eleven records; only the last one lacks a field. *)
Definition eleven : list (gmap string json) :=
  replicate 10 mad_record ++ [delete "answer_B" mad_record].

(** Four records: the second repeats the first question with equal
    answers, the third is short, the fourth has a blank answer. *)
Definition quiz_texts : list (string * string * string) :=
  [(mad_question, "Varm mad", "Kold mad");
   (mad_question, "Ja", "Ja");
   ("Hund eller kat?", "Hund", "Kat");
   ("Vil du helst bo i byen eller ude på landet?", "  ", "Landet")].

Definition quiz : list (gmap string json) :=
  (λ t, record (JString t.1.1) (JString t.1.2) (JString t.2) "x") <$> quiz_texts.

(** Equality of values other than strings, for the examples: nothing is
    equal. *)
Definition never_equal (a b : json) : bool := false.

(** A file the loader accepts and the quality check does not: the second
    question is a number. *)
Definition number_entries : list (string * FS.dirent) :=
  [("x.jsonl",
    FS.RegularFile (mad_line ++ newline
                    ++ json_line "7" (quoted "a") (quoted "b") ++ newline))].

Definition number_fs : gmap string FS.node := {[ "data" := FS.Directory number_entries ]}.

End Sample.

(** ** Tactics *)

(** Splits a membership in a concrete listing into one goal per entry. *)
Ltac each_entry H :=
  repeat (apply elem_of_cons in H as [H|H];
          [first [injection H as -> ->|subst]|]);
  try (by apply elem_of_nil in H).

(** * Properties *)

Local Open Scope list_scope.
Set Warnings "-clear-no-such-hyp".

(** ** The model on small inputs *)

Example loads_mad_line :
  Json.loads Sample.mad_line =
  Ok (JObject {[ "question" := JString Sample.mad_question;
                 "answer_A" := JString "Varm mad";
                 "answer_B" := JString "Kold mad" ]}).
Proof. vm_compute. reflexivity. Qed.

Example loads_values :
  Json.loads "[1, -20, 2.5e3, true, false, null, NaN, -Infinity, {}, [ ]]" =
  Ok (JArray [JInt 1; JInt (-20); JFloat "2.5e3"; JBool true; JBool false; JNull;
              JFloat "NaN"; JFloat "-Infinity"; JObject ∅; JArray []]).
Proof. vm_compute. reflexivity. Qed.

Example loads_repeated_key :
  Json.loads ("{" ++ quoted "k" ++ ":1," ++ quoted "k" ++ ":2}")%string =
  Ok (JObject {[ "k" := JInt 2 ]}).
Proof. vm_compute. reflexivity. Qed.

Example loads_escapes :
  Json.loads (quoted "a\nb\u00e6\ud83d\ude00") =
  Ok (JString ("a" ++ Sample.newline ++ "bæ😀")%string).
Proof. vm_compute. reflexivity. Qed.

Example loads_empty_line :
  Json.loads Sample.newline = Raise (JSONDecodeError "Expecting value").
Proof. reflexivity. Qed.

Example loads_trailing_comma :
  Json.loads "[1,]" = Raise (JSONDecodeError "Expecting value").
Proof. reflexivity. Qed.

Example loads_two_values :
  Json.loads "{} {}" = Raise (JSONDecodeError "Extra data").
Proof. reflexivity. Qed.

Example loads_leading_zero :
  Json.loads "01" = Raise (JSONDecodeError "Extra data").
Proof. reflexivity. Qed.

Example getitem_of_list :
  getitem (JArray [JInt 1]) "question" =
  Raise (TypeError "list indices must be integers or slices, not str").
Proof. reflexivity. Qed.

Example stem_examples :
  Path.stem "work.jsonl" = "work" ∧ Path.stem "a.b.jsonl" = "a.b" ∧
  Path.stem ".jsonl" = ".jsonl" ∧ Path.stem ".jsonl.jsonl" = ".jsonl".
Proof. repeat split; reflexivity. Qed.

Example matches_examples :
  Path.matches_jsonl "work.jsonl" = true ∧ Path.matches_jsonl ".jsonl" = true ∧
  Path.matches_jsonl "work.JSONL" = false ∧ Path.matches_jsonl "work.jsonl.bak" = false ∧
  Path.matches_jsonl "jsonl" = false.
Proof. repeat split; reflexivity. Qed.

Example readlines_newlines :
  TextIO.readlines
    ("a" ++ String Char.cr Sample.newline ++ "b" ++ String Char.cr "c"
         ++ Sample.newline ++ Sample.newline ++ "d")%string =
  Ok [("a" ++ Sample.newline)%string; ("b" ++ Sample.newline)%string;
      ("c" ++ Sample.newline)%string; Sample.newline; "d"].
Proof. reflexivity. Qed.

Example readlines_not_utf8 :
  TextIO.readlines (String "255"%char "abc") = Raise UnicodeDecodeError ∧
  TextIO.readlines (String "237"%char (String "160"%char (String "128"%char "")))
    = Raise UnicodeDecodeError ∧
  TextIO.utf8_valid "blåbærgrød 😀" = true.
Proof. repeat split; reflexivity. Qed.

Example load_mixed_file :
  load_hygdk_dataset Sample.mixed_fs "data" = Raise (KeyError "answer_B").
Proof. vm_compute. reflexivity. Qed.

(** ** The decoder consumes text and never runs out of fuel *)

Section DecoderFuel.

Import Json.

Lemma skip_ws_length s : String.length (Text.skip_ws s) ≤ String.length s.
Proof.
  induction s as [|c s IH]; simpl; [lia|].
  destruct (Char.is_json_ws c); simpl; lia.
Qed.

Lemma strip_prefix_length p s r :
  Text.strip_prefix p s = Some r →
  String.length s = (String.length p + String.length r)%nat.
Proof.
  revert s; induction p as [|a p IH]; intros s; simpl.
  - intros [= <-]. done.
  - destruct s as [|b s]; [done|].
    destruct (Ascii.eqb a b); [|done]. intros H%IH. simpl. lia.
Qed.

Lemma literal_length lit v s v' r :
  literal lit v s = Some (v', r) →
  String.length s = (String.length lit + String.length r)%nat.
Proof.
  unfold literal. destruct (Text.strip_prefix lit s) as [r'|] eqn:E; simpl; [|done].
  intros [= _ <-]. by apply strip_prefix_length.
Qed.

Lemma span_digits_length s ds r :
  span_digits s = (ds, r) →
  String.length s = (String.length ds + String.length r)%nat.
Proof.
  revert ds r; induction s as [|c s IH]; simpl; intros ds r.
  - intros [= <- <-]. done.
  - destruct (Char.is_digit c).
    + destruct (span_digits s) as [ds' r'] eqn:E. intros [= <- <-].
      simpl. rewrite (IH ds' r') by done. done.
    + intros [= <- <-]. done.
Qed.

Lemma match_integer_length s neg ds r :
  match_integer s = Some (neg, ds, r) → String.length r < String.length s.
Proof.
  unfold match_integer.
  destruct s as [|c s]; [done|].
  destruct (Ascii.eqb c "-").
  - destruct s as [|c' s]; [done|].
    destruct (Ascii.eqb c' "0"); [intros [= _ _ <-]; simpl; lia|].
    destruct (Char.is_digit19 c'); [|done].
    destruct (span_digits s) as [ds' r'] eqn:E. intros [= _ _ <-].
    apply span_digits_length in E. simpl. lia.
  - destruct (Ascii.eqb c "0"); [intros [= _ _ <-]; simpl; lia|].
    destruct (Char.is_digit19 c); [|done].
    destruct (span_digits s) as [ds' r'] eqn:E. intros [= _ _ <-].
    apply span_digits_length in E. simpl. lia.
Qed.

Lemma match_frac_length s f r :
  match_frac s = (f, r) → String.length r ≤ String.length s.
Proof.
  unfold match_frac. destruct s as [|c [|d s]]; try (intros [= _ <-]; done).
  destruct (Ascii.eqb c "." && Char.is_digit d); [|intros [= _ <-]; done].
  destruct (span_digits (String d s)) as [ds r'] eqn:E. intros [= _ <-].
  apply span_digits_length in E. simpl in *. lia.
Qed.

Lemma match_exp_length s e r :
  match_exp s = (e, r) → String.length r ≤ String.length s.
Proof.
  unfold match_exp. destruct s as [|c s]; [intros [= _ <-]; done|].
  destruct (Ascii.eqb c "e" || Ascii.eqb c "E"); [|intros [= _ <-]; done].
  destruct s as [|c' s].
  - simpl. intros [= _ <-]. done.
  - destruct (Ascii.eqb c' "-" || Ascii.eqb c' "+").
    + destruct (span_digits s) as [[|d ds] r'] eqn:E; intros [= _ <-]; [done|].
      apply span_digits_length in E. simpl in *. lia.
    + destruct (span_digits (String c' s)) as [[|d ds] r'] eqn:E; intros [= _ <-]; [done|].
      apply span_digits_length in E. simpl in *. lia.
Qed.

Lemma match_number_length s v r :
  match_number s = Some (v, r) → String.length r < String.length s.
Proof.
  unfold match_number.
  destruct (match_integer s) as [[[neg ds] s1]|] eqn:E1; [|done].
  destruct (match_frac s1) as [f s2] eqn:E2.
  destruct (match_exp s2) as [e s3] eqn:E3.
  apply match_integer_length in E1. apply match_frac_length in E2.
  apply match_exp_length in E3.
  destruct (String.eqb f "" && String.eqb e ""); intros [= _ <-]; lia.
Qed.

Lemma scan_atom_length s v r :
  scan_atom s = Ok (v, r) → String.length r < String.length s.
Proof.
  unfold scan_atom.
  repeat match goal with
  | |- context [literal ?l ?v ?s] =>
      let E := fresh "E" in
      destruct (literal l v s) as [[??]|] eqn:E;
      [apply literal_length in E; simpl in E; simpl; intros [= _ <-]; lia|]
  | |- context [match_number ?s] =>
      let E := fresh "E" in
      destruct (match_number s) as [[??]|] eqn:E;
      [apply match_number_length in E; simpl; intros [= _ <-]; lia|]
  end; simpl.
  done.
Qed.

Lemma scan_atom_no_RecursionError s : scan_atom s ≠ Raise RecursionError.
Proof. unfold scan_atom. by case_match. Qed.

Lemma scanstring_length s chunks str r :
  scanstring s chunks = Ok (str, r) → String.length r < String.length s.
Proof.
  assert (Hle : String.length s ≤ String.length s) by lia.
  revert Hle. generalize (String.length s) at 2 as n. intros n.
  revert s chunks. induction n as [|n IH]; intros s chunks Hle.
  - destruct s; simpl in *; [done|lia].
  - destruct s as [|c s]; [done|]. simpl in Hle.
    cbn [scanstring].
    destruct (Ascii.eqb c Char.quote); [intros [= _ <-]; simpl; lia|].
    destruct (Char.code c <? 32)%N; [done|].
    destruct (negb (Ascii.eqb c Char.backslash)).
    { intros H%IH; [simpl; lia|lia]. }
    destruct s as [|esc s]; [done|]. simpl in Hle.
    destruct (negb (Ascii.eqb esc "u")).
    { destruct (backslash_table esc); [|done]. intros H%IH; [simpl; lia|lia]. }
    destruct s as [|h1 [|h2 [|h3 [|h4 s]]]]; try done. simpl in Hle.
    destruct (hex4 h1 h2 h3 h4) as [uni|]; [|done].
    assert (Hplain : ∀ ch, scanstring s ch = Ok (str, r) →
              String.length r < String.length (String c (String esc (String h1 (String h2 (String h3 (String h4 s))))))).
    { intros ch H%IH; [simpl; lia|lia]. }
    destruct s as [|b [|u [|l1 [|l2 [|l3 [|l4 s]]]]]]; try apply Hplain.
    destruct (is_high_surrogate uni && Ascii.eqb b Char.backslash && Ascii.eqb u "u");
      [|apply Hplain].
    destruct (hex4 l1 l2 l3 l4) as [uni2|]; [|done].
    destruct (is_low_surrogate uni2); [|apply Hplain].
    simpl in Hle. intros H%IH; [simpl; lia|lia].
Qed.

Lemma scanstring_no_RecursionError s chunks :
  scanstring s chunks ≠ Raise RecursionError.
Proof.
  assert (Hle : String.length s ≤ String.length s) by lia.
  revert Hle. generalize (String.length s) at 2 as n. intros n.
  revert s chunks. induction n as [|n IH]; intros s chunks Hle.
  - destruct s; simpl in *; [done|lia].
  - destruct s as [|c s]; [done|]. simpl in Hle.
    cbn [scanstring].
    destruct (Ascii.eqb c Char.quote); [done|].
    destruct (Char.code c <? 32)%N; [done|].
    destruct (negb (Ascii.eqb c Char.backslash)); [apply IH; lia|].
    destruct s as [|esc s]; [done|]. simpl in Hle.
    destruct (negb (Ascii.eqb esc "u")).
    { destruct (backslash_table esc); [|done]. apply IH; lia. }
    destruct s as [|h1 [|h2 [|h3 [|h4 s]]]]; try done. simpl in Hle.
    destruct (hex4 h1 h2 h3 h4) as [uni|]; [|done].
    assert (Hplain : ∀ ch, scanstring s ch ≠ Raise RecursionError).
    { intros ch. apply IH. lia. }
    destruct s as [|b [|u [|l1 [|l2 [|l3 [|l4 s]]]]]]; try apply Hplain.
    destruct (is_high_surrogate uni && Ascii.eqb b Char.backslash && Ascii.eqb u "u");
      [|apply Hplain].
    destruct (hex4 l1 l2 l3 l4) as [uni2|]; [|done].
    destruct (is_low_surrogate uni2); [|apply Hplain].
    simpl in Hle. apply IH; lia.
Qed.

Lemma consumes_err s msg : consumes s (err msg).
Proof. split; [done|]. intros v r [=]. Qed.

Lemma consumes_shorter s s' res :
  String.length s' ≤ String.length s → consumes s' res → consumes s res.
Proof. intros Hle [Hne Hlen]. split; [done|]. intros v r H%Hlen. lia. Qed.

Lemma scanner_fuel fuel :
  (∀ s, 2 * String.length s + 1 ≤ fuel → consumes s (scan_once fuel s)) ∧
  (∀ s pairs, 2 * String.length s + 2 ≤ fuel → consumes s (object_loop fuel s pairs)) ∧
  (∀ s values, 2 * String.length s + 2 ≤ fuel → consumes s (array_loop fuel s values)).
Proof.
  induction fuel as [|fuel (IHscan & IHobj & IHarr)]; [repeat split; intros; lia|].
  split; [|split].
  - intros s Hfuel. cbn [scan_once].
    destruct s as [|nextchar rest]; [split; [done|intros ?? [=]]|].
    simpl in Hfuel.
    destruct (Ascii.eqb nextchar Char.quote).
    { destruct (scanstring rest "") as [[str rest']|e] eqn:E.
      - apply scanstring_length in E. split; [done|]. intros v r [= _ <-]. simpl. lia.
      - split; [|intros ?? [=]]. intros [= ->].
        by apply scanstring_no_RecursionError in E. }
    destruct (Ascii.eqb nextchar "{").
    { pose proof (skip_ws_length rest) as Hws.
      destruct (Text.skip_ws rest) as [|c rest']; [apply consumes_err|].
      simpl in Hws.
      destruct (Ascii.eqb c "}"); [split; [done|intros v r [= _ <-]; simpl; lia]|].
      destruct (Ascii.eqb c Char.quote); [|apply consumes_err].
      apply (consumes_shorter _ rest'); [simpl; lia|]. apply IHobj. lia. }
    destruct (Ascii.eqb nextchar "[").
    { pose proof (skip_ws_length rest) as Hws.
      destruct (Text.skip_ws rest) as [|c rest'].
      - apply (consumes_shorter _ ""); [simpl; lia|]. apply IHarr. simpl. lia.
      - simpl in Hws.
        destruct (Ascii.eqb c "]"); [split; [done|intros v r [= _ <-]; simpl; lia]|].
        apply (consumes_shorter _ (String c rest')); [simpl; lia|].
        apply IHarr. simpl. lia. }
    split; [apply scan_atom_no_RecursionError|apply scan_atom_length].
  - intros s pairs Hfuel. cbn [object_loop].
    destruct (scanstring s "") as [[key s1]|e] eqn:E; cycle 1.
    { split; [|intros ?? [=]]. intros [= ->].
      by apply scanstring_no_RecursionError in E. }
    apply scanstring_length in E. cbn [mbind result_bind].
    pose proof (skip_ws_length s1) as Hws1.
    destruct (Text.skip_ws s1) as [|colon s2]; [apply consumes_err|]. simpl in Hws1.
    destruct (Ascii.eqb colon ":"); [|apply consumes_err].
    pose proof (skip_ws_length s2) as Hws2.
    destruct (IHscan (Text.skip_ws s2)) as [Hne Hlen]; [lia|].
    destruct (scan_once fuel (Text.skip_ws s2)) as [[value s3]|e] eqn:E2; cycle 1.
    { destruct e; try done; apply consumes_err. }
    specialize (Hlen _ _ eq_refl). cbn [expecting_value mbind result_bind].
    pose proof (skip_ws_length s3) as Hws3.
    destruct (Text.skip_ws s3) as [|nextchar s4]; [apply consumes_err|]. simpl in Hws3.
    destruct (Ascii.eqb nextchar "}"); [split; [done|intros v r [= _ <-]; lia]|].
    destruct (Ascii.eqb nextchar ","); [|apply consumes_err].
    pose proof (skip_ws_length s4) as Hws4.
    destruct (Text.skip_ws s4) as [|q s5]; [apply consumes_err|]. simpl in Hws4.
    destruct (Ascii.eqb q Char.quote); [|apply consumes_err].
    apply (consumes_shorter _ s5); [lia|]. apply IHobj. lia.
  - intros s values Hfuel. cbn [array_loop].
    destruct (IHscan s) as [Hne Hlen]; [lia|].
    destruct (scan_once fuel s) as [[value s1]|e] eqn:E; cycle 1.
    { destruct e; try done; apply consumes_err. }
    specialize (Hlen _ _ eq_refl). cbn [expecting_value mbind result_bind].
    pose proof (skip_ws_length s1) as Hws1.
    destruct (Text.skip_ws s1) as [|nextchar s2]; [apply consumes_err|]. simpl in Hws1.
    destruct (Ascii.eqb nextchar "]"); [split; [done|intros v r [= _ <-]; lia]|].
    destruct (Ascii.eqb nextchar ","); [|apply consumes_err].
    pose proof (skip_ws_length s2) as Hws2.
    apply (consumes_shorter _ (Text.skip_ws s2)); [lia|]. apply IHarr. lia.
Qed.

Theorem json_loads_fuel s : loads s ≠ Raise RecursionError.
Proof.
  unfold loads. destruct (Text.strip_prefix BOM s); [done|].
  unfold decode.
  destruct (proj1 (scanner_fuel (fuel_for s)) (Text.skip_ws s)) as [Hne _].
  { pose proof (skip_ws_length s). unfold fuel_for. lia. }
  destruct (scan_once (fuel_for s) (Text.skip_ws s)) as [[obj rest]|e].
  - simpl. by destruct (Text.skip_ws rest).
  - by destruct e.
Qed.

End DecoderFuel.

(** ** The decoder raises nothing but [JSONDecodeError] *)

Section DecoderErrors.
Import Json.

Lemma err_decode_error {A} msg : raises_decode_error (@err A msg).
Proof. intros e [= <-]. eauto. Qed.

Lemma Ok_decode_error {A} (a : A) : raises_decode_error (Ok a).
Proof. intros e [=]. Qed.

Lemma scanstring_Raise s chunks e :
  scanstring s chunks = Raise e → ∃ msg, e = JSONDecodeError msg.
Proof.
  assert (Hle : String.length s ≤ String.length s) by lia.
  revert Hle. generalize (String.length s) at 2 as n. intros n.
  revert s chunks. induction n as [|n IH]; intros s chunks Hle.
  - destruct s; simpl in *; [|lia]. intros [= <-]. eauto.
  - destruct s as [|c s]; [intros [= <-]; eauto|]. simpl in Hle.
    cbn [scanstring].
    destruct (Ascii.eqb c Char.quote); [done|].
    destruct (Char.code c <? 32)%N; [intros [= <-]; eauto|].
    destruct (negb (Ascii.eqb c Char.backslash)); [apply IH; lia|].
    destruct s as [|esc s]; [intros [= <-]; eauto|]. simpl in Hle.
    destruct (negb (Ascii.eqb esc "u")).
    { destruct (backslash_table esc); [apply IH; lia|intros [= <-]; eauto]. }
    destruct s as [|h1 [|h2 [|h3 [|h4 s]]]]; try (intros [= <-]; eauto). simpl in Hle.
    destruct (hex4 h1 h2 h3 h4) as [uni|]; [|intros [= <-]; eauto].
    assert (Hplain : ∀ ch, scanstring s ch = Raise e → ∃ msg, e = JSONDecodeError msg).
    { intros ch. apply IH. lia. }
    destruct s as [|b [|u [|l1 [|l2 [|l3 [|l4 s]]]]]]; try apply Hplain.
    destruct (is_high_surrogate uni && Ascii.eqb b Char.backslash && Ascii.eqb u "u");
      [|apply Hplain].
    destruct (hex4 l1 l2 l3 l4) as [uni2|]; [|intros [= <-]; eauto].
    destruct (is_low_surrogate uni2); [|apply Hplain].
    simpl in Hle. apply IH; lia.
Qed.

Lemma scan_atom_Raise s e : scan_atom s = Raise e → e = StopIteration.
Proof. unfold scan_atom. case_match; congruence. Qed.

Lemma expecting_value_decode_error {A} (res : result A) :
  raises_decode_error res → raises_decode_error (expecting_value res).
Proof.
  intros H e. destruct res as [a|e']; [done|].
  destruct (H e' eq_refl) as [->|[->|[msg ->]]]; simpl; intros [= <-]; eauto.
Qed.

Lemma bind_decode_error {A B} (res : result A) (f : A → result B) :
  raises_decode_error res → (∀ a, raises_decode_error (f a)) →
  raises_decode_error (res ≫= f).
Proof.
  intros H Hf e. destruct res as [a|e']; simpl.
  - apply Hf.
  - intros [= <-]. by apply H.
Qed.

Lemma scanner_raises fuel :
  (∀ s, raises_decode_error (scan_once fuel s)) ∧
  (∀ s pairs, raises_decode_error (object_loop fuel s pairs)) ∧
  (∀ s values, raises_decode_error (array_loop fuel s values)).
Proof.
  induction fuel as [|fuel (IHscan & IHobj & IHarr)];
    [repeat split; intros; intros e [= <-]; eauto|].
  assert (Hstr : ∀ s, raises_decode_error (scanstring s "")).
  { intros s e H%scanstring_Raise. eauto. }
  split; [|split].
  - intros s. cbn [scan_once]. destruct s as [|nextchar rest]; [intros e [= <-]; eauto|].
    repeat case_match; subst;
      eauto using @err_decode_error, @Ok_decode_error.
    + apply bind_decode_error; [done|]. intros [??]. apply Ok_decode_error.
    + intros e ?%scan_atom_Raise. eauto.
  - intros s pairs. cbn [object_loop].
    apply bind_decode_error; [done|]. intros [key s1].
    repeat case_match; subst; eauto using @err_decode_error.
    apply bind_decode_error; [by apply expecting_value_decode_error|].
    intros [value s3].
    repeat case_match; subst; eauto using @err_decode_error, @Ok_decode_error.
  - intros s values. cbn [array_loop].
    apply bind_decode_error; [by apply expecting_value_decode_error|].
    intros [value s1].
    repeat case_match; subst; eauto using @err_decode_error, @Ok_decode_error.
Qed.

End DecoderErrors.

(** ** The loops of the loader *)

Section Loader.

Implicit Types (fs : gmap string FS.node) (entries files : list (string * FS.dirent)).
Implicit Types (dataset : list (gmap string json)) (r : gmap string json).

Lemma collect_Ok {A} (rs : list (result A)) (l : list A) :
  collect rs = Ok l ↔ rs = Ok <$> l.
Proof.
  revert l; induction rs as [|[a|e] rs IH]; intros l; simpl.
  - split; [intros [= <-]; done|]. by destruct l.
  - destruct (collect rs) as [l'|e'] eqn:E; simpl.
    + split.
      * intros [= <-]. simpl. f_equal. by apply IH.
      * destruct l as [|a' l]; [done|]. intros [= -> H]. f_equal. f_equal.
        apply IH in H. congruence.
    + split; [done|]. destruct l as [|a' l]; [done|]. intros [= _ H].
      apply IH in H. done.
  - split; [done|]. by destruct l.
Qed.

Lemma collect_cons_Ok {A} (a : A) (rs : list (result A)) :
  collect (Ok a :: rs) = (λ l, a :: l) <$> collect rs.
Proof. simpl. by destruct (collect rs). Qed.

Lemma collect_Raise {A} (rs : list (result A)) e :
  collect rs = Raise e ↔ ∃ l rs', rs = (Ok <$> l) ++ Raise e :: rs'.
Proof.
  induction rs as [|[a|e'] rs IH].
  - split; [done|]. intros (l & rs' & H). by destruct l.
  - rewrite collect_cons_Ok.
    assert ((λ l, a :: l) <$> collect rs = Raise e ↔ collect rs = Raise e) as ->.
    { destruct (collect rs); simpl; split; congruence. }
    rewrite IH. split.
    + intros (l & rs' & ->). by exists (a :: l), rs'.
    + intros (l & rs' & H). destruct l as [|a' l]; [done|].
      injection H as -> H. eauto.
  - simpl. split.
    + intros [= ->]. by exists [], rs.
    + intros (l & rs' & H). destruct l as [|a' l]; [|done]. by injection H as ->.
Qed.

Lemma collect_is_Raise {A} (rs : list (result A)) :
  (∃ x, x ∈ rs ∧ is_Raise x) → is_Raise (collect rs).
Proof.
  intros (x & Hin & e & ->). induction rs as [|[a|e'] rs IH]; simpl.
  - by apply elem_of_nil in Hin.
  - apply elem_of_cons in Hin as [?|Hin]; [done|].
    destruct (IH Hin) as [e'' ->]. by exists e''.
  - by exists e'.
Qed.

Lemma for_line_collect category lines dataset :
  for_line category lines dataset =
  (l ← collect (entry_of_line category <$> lines); Ok (dataset ++ l)%list).
Proof.
  revert dataset; induction lines as [|line lines IH]; intros dataset; simpl.
  - by rewrite app_nil_r.
  - destruct (entry_of_line category line) as [r|e]; simpl; [|done].
    rewrite IH. destruct (collect _) as [l|e]; simpl; [|done].
    by rewrite <-app_assoc.
Qed.

Lemma for_file_path_collect files dataset :
  for_file_path files dataset =
  (ls ← collect (entries_of_file <$> files); Ok (dataset ++ concat ls)%list).
Proof.
  revert dataset; induction files as [|[name d] files IH]; intros dataset; simpl.
  - by rewrite app_nil_r.
  - unfold entries_of_file in *. simpl.
    destruct (FS.open name d) as [bytes|e]; simpl; [|done].
    destruct (TextIO.readlines bytes) as [lines|e]; simpl; [|done].
    rewrite for_line_collect.
    destruct (collect (entry_of_line _ <$> lines)) as [l|e]; simpl; [|done].
    rewrite IH. destruct (collect _) as [ls|e]; simpl; [|done].
    by rewrite <-app_assoc.
Qed.

Lemma load_collect fs data_dir :
  load_hygdk_dataset fs data_dir =
  (λ ls, concat ls) <$> collect (entries_of_file <$> Path.glob_jsonl fs data_dir).
Proof.
  unfold load_hygdk_dataset. rewrite for_file_path_collect.
  by destruct (collect _).
Qed.

Lemma glob_directory fs data_dir entries :
  fs !! data_dir = Some (FS.Directory entries) →
  Path.glob_jsonl fs data_dir = matched entries.
Proof. unfold Path.glob_jsonl. by intros ->. Qed.

Lemma glob_not_directory fs data_dir :
  (∀ entries, fs !! data_dir ≠ Some (FS.Directory entries)) →
  Path.glob_jsonl fs data_dir = [].
Proof.
  unfold Path.glob_jsonl. intros H.
  destruct (fs !! data_dir) as [[bytes|entries]|] eqn:E; [done| |done].
  by destruct (H entries).
Qed.

Lemma elem_of_matched name d entries :
  (name, d) ∈ matched entries ↔ (name, d) ∈ entries ∧ Path.matches_jsonl name = true.
Proof.
  unfold matched. rewrite list_elem_of_filter. simpl.
  rewrite Is_true_true. tauto.
Qed.

End Loader.

(** ** One line *)

Section Lines.

Implicit Types (data v q a b : json) (r : gmap string json).
Implicit Types (line category key : string).

Lemma loads_Raise s e : Json.loads s = Raise e → ∃ msg, e = JSONDecodeError msg.
Proof.
  intros H. pose proof (json_loads_fuel s) as Hfuel.
  assert (raises_decode_error (Json.loads s)) as Hcls.
  { unfold Json.loads. case_match; [apply err_decode_error|].
    unfold Json.decode. apply bind_decode_error.
    - apply expecting_value_decode_error, scanner_raises.
    - intros [obj rest]. case_match; [apply Ok_decode_error|apply err_decode_error]. }
  destruct (Hcls e H) as [->|[->|?]]; [|done..].
  revert H. unfold Json.loads. case_match; [done|]. unfold Json.decode.
  destruct (Json.scan_once _ _) as [[obj rest]|[]]; simpl; try done.
  by case_match.
Qed.

Lemma getitem_Ok data key v :
  getitem data key = Ok v ↔ ∃ members, data = JObject members ∧ members !! key = Some v.
Proof.
  split.
  - destruct data; try done. simpl. case_match; [|done]. intros [= <-]. eauto.
  - intros (members & -> & H). simpl. by rewrite H.
Qed.

Lemma getitem_Raise data key e :
  getitem data key = Raise e → e = KeyError key ∨ ∃ msg, e = TypeError msg.
Proof. destruct data; simpl; try case_match; intros [= <-]; eauto. Qed.

Lemma has_key_getitem data key :
  has_key data key = true ↔ is_Ok (getitem data key).
Proof.
  unfold is_Ok. destruct data; simpl; try (split; [done|intros [? [=]]]).
  rewrite bool_decide_eq_true. destruct (members !! key) as [v|].
  - split; eauto.
  - split; [by intros [? [=]]|by intros [? [=]]].
Qed.

Lemma make_entry_Ok data category r :
  make_entry data category = Ok r ↔
  ∃ members q a b,
    data = JObject members ∧ members !! "question" = Some q ∧
    members !! "answer_A" = Some a ∧ members !! "answer_B" = Some b ∧
    r = record q a b category.
Proof.
  unfold make_entry. split.
  - destruct (getitem data "question") as [q|] eqn:Eq; [|done].
    destruct (getitem data "answer_A") as [a|] eqn:Ea; [|done].
    destruct (getitem data "answer_B") as [b|] eqn:Eb; [|done].
    simpl. intros [= <-].
    apply getitem_Ok in Eq as (m & -> & Hq). apply getitem_Ok in Ea as (m' & [= <-] & Ha).
    apply getitem_Ok in Eb as (m' & [= <-] & Hb). by exists m, q, a, b.
  - intros (m & q & a & b & -> & Hq & Ha & Hb & ->). simpl.
    by rewrite Hq, Ha, Hb.
Qed.

Lemma make_entry_Raise data category e :
  make_entry data category = Raise e → parse_or_lookup_error e.
Proof.
  unfold make_entry.
  destruct (getitem data "question") as [q|e1] eqn:Eq.
  2:{ intros [= <-]. apply getitem_Raise in Eq as [->|[msg ->]]; simpl; [set_solver|done]. }
  destruct (getitem data "answer_A") as [a|e1] eqn:Ea.
  2:{ intros [= <-]. apply getitem_Raise in Ea as [->|[msg ->]]; simpl; [set_solver|done]. }
  destruct (getitem data "answer_B") as [b|e1] eqn:Eb; [done|].
  intros [= <-]. apply getitem_Raise in Eb as [->|[msg ->]]; simpl; [set_solver|done].
Qed.

Lemma make_entry_is_Ok data category :
  is_Ok (make_entry data category) ↔ forallb (has_key data) required_keys = true.
Proof.
  simpl. rewrite !andb_true_iff, !has_key_getitem. unfold make_entry, is_Ok. split.
  - intros [r H].
    destruct (getitem data "question") as [q|]; [|done].
    destruct (getitem data "answer_A") as [a|]; [|done].
    destruct (getitem data "answer_B") as [b|]; [|done]. eauto 10.
  - intros ([q ->] & [a ->] & [b ->] & _). simpl. eauto.
Qed.

Lemma entry_of_line_Ok category line r :
  entry_of_line category line = Ok r ↔
  ∃ members q a b,
    Json.loads line = Ok (JObject members) ∧ members !! "question" = Some q ∧
    members !! "answer_A" = Some a ∧ members !! "answer_B" = Some b ∧
    r = record q a b category.
Proof.
  unfold entry_of_line. split.
  - destruct (Json.loads line) as [data|]; [|done]. simpl.
    intros (m & q & a & b & -> & ?)%make_entry_Ok. by exists m, q, a, b.
  - intros (m & q & a & b & -> & H). simpl. apply make_entry_Ok. by exists m, q, a, b.
Qed.

Lemma entry_of_line_Raise category line e :
  entry_of_line category line = Raise e → parse_or_lookup_error e.
Proof.
  unfold entry_of_line. destruct (Json.loads line) as [data|e'] eqn:E; simpl.
  - apply make_entry_Raise.
  - intros [= <-]. by apply loads_Raise in E as [msg ->].
Qed.

Lemma well_formed_line_true category line :
  well_formed_line line = true ↔ is_Ok (entry_of_line category line).
Proof.
  unfold well_formed_line, entry_of_line.
  destruct (Json.loads line) as [data|e].
  - symmetry. apply make_entry_is_Ok.
  - split; [done|]. by intros [? [=]].
Qed.

Lemma entry_of_line_category category line r :
  entry_of_line category line = Ok r → r !! "category" = Some (JString category).
Proof. by intros (m & q & a & b & _ & _ & _ & _ & ->)%entry_of_line_Ok. Qed.

End Lines.

(** ** One file, and the whole directory *)

Section Files.

Implicit Types (fs : gmap string FS.node) (entries files : list (string * FS.dirent)).
Implicit Types (dataset records : list (gmap string json)) (r : gmap string json).
Implicit Types (file : string * FS.dirent).

Lemma collect_fmap_Ok {A B} (f : A → result B) (l : list A) (k : list B) :
  collect (f <$> l) = Ok k ↔ Forall2 (λ x y, f x = Ok y) l k.
Proof.
  rewrite collect_Ok. revert k; induction l as [|x l IH]; intros [|y k]; simpl.
  - split; [constructor|done].
  - split; [done|]. intros H; inversion H.
  - split; [done|]. intros H; inversion H.
  - split.
    + intros [= Hx Hl]. constructor; [done|]. by apply IH.
    + intros H; inversion H; subst. f_equal; [done|]. by apply IH.
Qed.

Lemma entries_of_file_Ok file records :
  entries_of_file file = Ok records ↔ loaded_from file records.
Proof.
  destruct file as [name d]. unfold entries_of_file, loaded_from. simpl.
  destruct d as [bytes| |]; simpl.
  - unfold TextIO.readlines. destruct (TextIO.utf8_valid bytes); simpl.
    + rewrite collect_fmap_Ok. tauto.
    + split; [done|]. by intros [? _].
  - split; [done|]. by intros [? _].
  - split; [done|]. by intros [? _].
Qed.

Lemma entries_of_file_is_Ok file :
  is_Ok (entries_of_file file) ↔ well_formed_file file.2 = true.
Proof.
  destruct file as [name d]. unfold is_Ok.
  setoid_rewrite entries_of_file_Ok. unfold loaded_from, well_formed_file. simpl.
  rewrite andb_true_iff, forallb_forall. split.
  - intros (records & Hr & Hl). split; [done|]. intros line Hin%list_elem_of_In.
    apply (well_formed_line_true (Path.stem name)).
    apply list_elem_of_lookup in Hin as [i Hi].
    destruct (Forall2_lookup_l _ _ _ _ _ Hl Hi) as (r & _ & Hr'). by exists r.
  - intros [Hr Hall].
    assert (∃ records, Forall2 (λ line r, entry_of_line (Path.stem name) line = Ok r)
                               (file_lines d) records) as [records ?]; [|eauto].
    induction (file_lines d) as [|line lines IH]; [by exists []|].
    destruct IH as [records Hrec]; [intros l Hl; apply Hall; by right|].
    destruct (proj1 (well_formed_line_true (Path.stem name) line)) as [r Hr'].
    { apply Hall. by left. }
    exists (r :: records). by constructor.
Qed.

Lemma entries_of_file_is_Raise file :
  is_Raise (entries_of_file file) ↔ well_formed_file file.2 = false.
Proof.
  rewrite <-not_true_iff_false, <-entries_of_file_is_Ok. unfold is_Ok, is_Raise.
  destruct (entries_of_file file); split.
  - by intros [? [=]].
  - intros []. eauto.
  - by intros _ [? [=]].
  - eauto.
Qed.

Lemma load_Ok fs data_dir dataset :
  load_hygdk_dataset fs data_dir = Ok dataset ↔
  ∃ per_file, dataset = concat per_file ∧
              Forall2 loaded_from (Path.glob_jsonl fs data_dir) per_file.
Proof.
  rewrite load_collect. split.
  - destruct (collect _) as [per_file|] eqn:E; [|done]. simpl. intros [= <-].
    exists per_file. split; [done|]. apply collect_fmap_Ok in E.
    eapply Forall2_impl; [done|]. intros file records. apply entries_of_file_Ok.
  - intros (per_file & -> & H).
    assert (collect (entries_of_file <$> Path.glob_jsonl fs data_dir) = Ok per_file) as ->; [|done].
    apply collect_fmap_Ok. eapply Forall2_impl; [done|].
    intros file records. apply entries_of_file_Ok.
Qed.

Lemma load_is_Raise fs data_dir :
  is_Raise (load_hygdk_dataset fs data_dir) ↔
  ∃ file, file ∈ Path.glob_jsonl fs data_dir ∧ well_formed_file file.2 = false.
Proof.
  rewrite load_collect. split.
  - intros [e He]. destruct (collect _) as [|e'] eqn:E; [done|].
    apply collect_Raise in E as (l & rs' & E).
    assert (Raise e' ∈ entries_of_file <$> Path.glob_jsonl fs data_dir) as Hin.
    { rewrite E. set_solver. }
    apply list_elem_of_fmap in Hin as (file & Hf & Hin). exists file. split; [done|].
    apply entries_of_file_is_Raise. by exists e'.
  - intros (file & Hin & [e He]%entries_of_file_is_Raise).
    destruct (collect_is_Raise (entries_of_file <$> Path.glob_jsonl fs data_dir)) as [e' ->];
      [|by exists e'].
    exists (Raise e). split; [|by exists e]. rewrite <-He. by apply list_elem_of_fmap_2.
Qed.

End Files.

(** ** File names and blank lines *)

Section Names.

Implicit Types (name pre s : string).

Lemma ends_with_cons p c s :
  Text.ends_with p (String c s) = String.eqb p (String c s) || Text.ends_with p s.
Proof. done. Qed.

Lemma ends_with_app pre s : Text.ends_with s (pre ++ s)%string = true.
Proof.
  induction pre as [|c pre IH].
  - destruct s; [done|]. change ("" ++ String a s)%string with (String a s).
    by rewrite ends_with_cons, String.eqb_refl.
  - change (String c pre ++ s)%string with (String c (pre ++ s)%string).
    by rewrite ends_with_cons, IH, orb_true_r.
Qed.

Lemma ends_with_inv p s :
  Text.ends_with p s = true → ∃ pre, s = (pre ++ p)%string.
Proof.
  induction s as [|c s IH]; [|rewrite ends_with_cons].
  - intros ->%String.eqb_eq. by exists "".
  - intros [->%String.eqb_eq|H]%orb_true_iff; [by exists ""|].
    destruct (IH H) as [pre ->]. by exists (String c pre).
Qed.

Lemma rfind_dot_jsonl pre :
  Text.rfind_dot (pre ++ ".jsonl")%string = Some (String.length pre).
Proof. induction pre as [|c pre IH]; simpl; [done|]. by rewrite IH. Qed.

Lemma take_app pre s : Text.take (String.length pre) (pre ++ s)%string = pre.
Proof.
  induction pre as [|c pre IH]; simpl; [by destruct s|]. by rewrite IH.
Qed.

Lemma string_length_app (a b : string) :
  String.length (a ++ b)%string = String.length a + String.length b.
Proof. induction a as [|c a IH]; simpl; [done|]. by rewrite IH. Qed.

Lemma stem_jsonl pre :
  pre ≠ "" → Path.stem (pre ++ ".jsonl")%string = pre.
Proof.
  intros Hne. unfold Path.stem. rewrite rfind_dot_jsonl, string_length_app. simpl.
  destruct pre as [|c pre]; [done|]. simpl String.length.
  assert ((0 <? S (String.length pre)) && (S (String.length pre) <? S (String.length pre) + 6 - 1) = true) as ->.
  { apply andb_true_iff. split; apply Nat.ltb_lt; lia. }
  change (String c pre) with (String c pre) at 2.
  apply (take_app (String c pre)).
Qed.

Lemma stem_matched name :
  Path.matches_jsonl name = true → name ≠ ".jsonl" →
  name = (Path.stem name ++ ".jsonl")%string.
Proof.
  intros [pre ->]%ends_with_inv Hne. rewrite stem_jsonl; [done|]. by intros ->.
Qed.

End Names.

Section Blank.
Import Json.





End Blank.

(** ** Where an exception comes from *)

Section Errors.

Implicit Types (fs : gmap string FS.node) (entries files : list (string * FS.dirent)).
Implicit Types (dataset records : list (gmap string json)) (r : gmap string json).
Implicit Types (file : string * FS.dirent).

Lemma collect_fmap_Raise {A B} (f : A → result B) (l : list A) e :
  collect (f <$> l) = Raise e → ∃ x, x ∈ l ∧ f x = Raise e.
Proof.
  intros (k & rs' & H)%collect_Raise.
  assert (Raise e ∈ f <$> l) as (x & Hx & Hin)%list_elem_of_fmap; [|eauto].
  rewrite H. set_solver.
Qed.

Lemma entries_of_file_Raise name d e :
  entries_of_file (name, d) = Raise e →
  readable d = false ∨
  ∃ line, line ∈ file_lines d ∧ entry_of_line (Path.stem name) line = Raise e.
Proof.
  unfold entries_of_file. simpl. destruct d as [bytes| |]; simpl; [|by left..].
  unfold TextIO.readlines. destruct (TextIO.utf8_valid bytes); simpl; [|by left].
  intros H%collect_fmap_Raise. by right.
Qed.

Lemma load_Raise fs data_dir e :
  load_hygdk_dataset fs data_dir = Raise e →
  ∃ file, file ∈ Path.glob_jsonl fs data_dir ∧ entries_of_file file = Raise e.
Proof.
  rewrite load_collect. destruct (collect _) as [|e'] eqn:E; [done|].
  intros [= ->]. by apply collect_fmap_Raise in E.
Qed.


End Errors.

(** * The claims *)

(** ** The shape of a record (C1) *)

Lemma record_fields question answer_A answer_B category :
  let r := record question answer_A answer_B category in
  r !! "questions" = Some question ∧ r !! "answer_A" = Some answer_A ∧
  r !! "answer_B" = Some answer_B ∧ r !! "category" = Some (JString category) ∧
  ∀ key, is_Some (r !! key) → key ∈ ["questions"; "answer_A"; "answer_B"; "category"].
Proof.
  repeat split; try done.
  intros key. unfold record.
  rewrite !lookup_insert_is_Some, lookup_singleton_is_Some, !elem_of_cons.
  naive_solver.
Qed.

Lemma elem_of_concat {A} (x : A) (ls : list (list A)) :
  x ∈ concat ls ↔ ∃ l, x ∈ l ∧ l ∈ ls.
Proof.
  rewrite list_elem_of_In, in_concat. setoid_rewrite list_elem_of_In. naive_solver.
Qed.

Lemma load_elem_of fs data_dir dataset r :
  load_hygdk_dataset fs data_dir = Ok dataset → r ∈ dataset →
  ∃ name d line,
    (name, d) ∈ Path.glob_jsonl fs data_dir ∧ line ∈ file_lines d ∧
    entry_of_line (Path.stem name) line = Ok r.
Proof.
  intros (per_file & -> & Hall)%load_Ok Hin.
  apply elem_of_concat in Hin as (records & Hr & Hrec).
  apply list_elem_of_lookup in Hrec as [i Hi].
  destruct (Forall2_lookup_r _ _ _ _ _ Hall Hi) as ([name d] & Hfile & _ & Hlines).
  apply list_elem_of_lookup in Hr as [j Hj].
  destruct (Forall2_lookup_r _ _ _ _ _ Hlines Hj) as (line & Hline & Hentry).
  exists name, d, line. split; [by eapply list_elem_of_lookup_2|].
  split; [by eapply list_elem_of_lookup_2|done].
Qed.

(** C1, as the loader has it.  Every record the loader returns comes from a
    line of a matched file and has exactly the four keys [questions],
    [answer_A], [answer_B] and [category]: the first three hold the values
    the line has under [question], [answer_A] and [answer_B], whatever they
    are, and [category] is a string, the stem of the file name.  Loading
    the directory that holds only [mad.jsonl] with the line of the
    specification returns exactly one record, [{questions: "Vil du hellere
    ...?", answer_A: "Varm mad", answer_B: "Kold mad", category: "mad"}]. *)
Theorem load_record_fields :
  (∀ fs data_dir dataset r,
     load_hygdk_dataset fs data_dir = Ok dataset → r ∈ dataset →
     ∃ name d line data question answer_A answer_B,
       (name, d) ∈ Path.glob_jsonl fs data_dir ∧ line ∈ file_lines d ∧
       Json.loads line = Ok data ∧
       getitem data "question" = Ok question ∧
       getitem data "answer_A" = Ok answer_A ∧
       getitem data "answer_B" = Ok answer_B ∧
       r !! "questions" = Some question ∧
       r !! "answer_A" = Some answer_A ∧
       r !! "answer_B" = Some answer_B ∧
       r !! "category" = Some (JString (Path.stem name)) ∧
       ∀ key, is_Some (r !! key) →
              key ∈ ["questions"; "answer_A"; "answer_B"; "category"]) ∧
  load_hygdk_dataset Sample.mad_fs "data" = Ok [Sample.mad_record].
Proof.
  split; [|vm_compute; reflexivity].
  intros fs data_dir dataset r Hload Hin.
  destruct (load_elem_of _ _ _ _ Hload Hin) as (name & d & line & Hfile & Hline & Hentry).
  apply entry_of_line_Ok in Hentry as (members & q & a & b & Hdata & Hq & Ha & Hb & ->).
  exists name, d, line, (JObject members), q, a, b.
  destruct (record_fields q a b (Path.stem name)) as (? & ? & ? & ? & ?).
  repeat split; try done; simpl; by rewrite ?Hq, ?Ha, ?Hb.
Qed.

Lemma load_record_fields_witness :
  ∃ name d line data question answer_A answer_B,
    (name, d) ∈ Path.glob_jsonl Sample.mad_fs "data" ∧ line ∈ file_lines d ∧
    Json.loads line = Ok data ∧
    getitem data "question" = Ok question ∧
    getitem data "answer_A" = Ok answer_A ∧
    getitem data "answer_B" = Ok answer_B ∧
    Sample.mad_record !! "questions" = Some question ∧
    Sample.mad_record !! "answer_A" = Some answer_A ∧
    Sample.mad_record !! "answer_B" = Some answer_B ∧
    Sample.mad_record !! "category" = Some (JString (Path.stem name)) ∧
    ∀ key, is_Some (Sample.mad_record !! key) →
           key ∈ ["questions"; "answer_A"; "answer_B"; "category"].
Proof.
  apply (proj1 load_record_fields Sample.mad_fs "data" [Sample.mad_record]).
  - vm_compute. reflexivity.
  - left.
Defined.

(** C1, as stated, fails on the example of the specification: the one
    record the loader returns for it has no key [question] (the question is
    under [questions]), so it is not the record the specification gives; and
    a line whose question is [null] yields a record whose question is
    [None]. *)
Lemma load_record_has_no_question_key :
  load_hygdk_dataset Sample.mad_fs "data" = Ok [Sample.mad_record] ∧
  Sample.mad_record !! "question" = None ∧
  Sample.mad_record ≠ Sample.expected_mad_record ∧
  load_hygdk_dataset Sample.null_fs "data"
    = Ok [record JNull (JString "a") (JString "b") "x"].
Proof.
  split; [vm_compute; reflexivity|]. split; [vm_compute; reflexivity|].
  split; [|vm_compute; reflexivity].
  intros H. apply (f_equal (λ r : gmap string json, r !! "question")) in H.
  vm_compute in H. discriminate H.
Qed.

(** ** A path that is no directory (C2), a directory without data (C6) *)

(** C2, what the loader does instead.  For a path that names no directory
    (nothing, or a regular file) [glob] yields nothing, the loop body never
    runs, and the loader returns the empty list: no exception reaches the
    caller. *)
Theorem load_missing_directory fs data_dir :
  (∀ entries, fs !! data_dir ≠ Some (FS.Directory entries)) →
  load_hygdk_dataset fs data_dir = Ok [].
Proof.
  intros H. unfold load_hygdk_dataset. by rewrite glob_not_directory.
Qed.

Lemma load_missing_directory_witness :
  load_hygdk_dataset ∅ "/no/such/directory" = Ok [] ∧
  load_hygdk_dataset Sample.file_fs "data" = Ok [].
Proof.
  split.
  - apply (load_missing_directory ∅ "/no/such/directory"). intros entries. done.
  - apply (load_missing_directory Sample.file_fs "data"). intros entries.
    vm_compute. discriminate.
Defined.

(** When the relative path names no directory, the caller does not reach
    its [except FileNotFoundError] handler: the loader hands it the empty
    list, and [main] reports an empty data set without trying the default
    path. *)
Lemma main_load_missing_directories fs :
  (∀ entries, fs !! "../data/hygdk" ≠ Some (FS.Directory entries)) →
  Probe.main_load fs = Probe.Empty.
Proof.
  intros H. unfold Probe.main_load, load_hygdk_dataset at 1.
  by rewrite glob_not_directory.
Qed.

(** C6.  On an existing directory none of whose entries matches [*.jsonl]
    (an empty directory included) the loader returns the empty list and
    raises nothing. *)
Theorem load_no_matching_file fs data_dir entries :
  fs !! data_dir = Some (FS.Directory entries) →
  (∀ name d, (name, d) ∈ entries → Path.matches_jsonl name = false) →
  load_hygdk_dataset fs data_dir = Ok [].
Proof.
  intros Hdir Hnone. unfold load_hygdk_dataset.
  rewrite (glob_directory _ _ _ Hdir).
  assert (matched entries = []) as ->; [|done].
  apply elem_of_nil_inv. intros [name d] [Hin Hm]%elem_of_matched.
  rewrite (Hnone _ _ Hin) in Hm. done.
Qed.

Lemma load_no_matching_file_witness :
  load_hygdk_dataset Sample.other_fs "data" = Ok [] ∧
  load_hygdk_dataset Sample.other_fs "empty" = Ok [].
Proof.
  split.
  - apply (load_no_matching_file Sample.other_fs "data" Sample.other_entries).
    + vm_compute. reflexivity.
    + intros name d H. each_entry H; reflexivity.
  - apply (load_no_matching_file Sample.other_fs "empty" []).
    + vm_compute. reflexivity.
    + intros name d H. each_entry H.
Defined.

(** ** Malformed and blank lines (C3, C10) *)

Lemma matched_Permutation entries entries' :
  entries ≡ₚ entries' → matched entries ≡ₚ matched entries'.
Proof. intros H. unfold matched. by rewrite H. Qed.

Lemma glob_insert fs data_dir entries :
  Path.glob_jsonl (<[data_dir := FS.Directory entries]> fs) data_dir = matched entries.
Proof. apply glob_directory. by rewrite lookup_insert_eq. Qed.

Lemma load_bad_line fs data_dir entries name d line :
  fs !! data_dir = Some (FS.Directory entries) →
  (name, d) ∈ entries → Path.matches_jsonl name = true →
  line ∈ file_lines d → well_formed_line line = false →
  is_Raise (load_hygdk_dataset fs data_dir).
Proof.
  intros Hdir Hin Hm Hline Hbad. apply load_is_Raise. exists (name, d).
  rewrite (glob_directory _ _ _ Hdir). split; [by apply elem_of_matched|].
  unfold well_formed_file. apply andb_false_iff. right.
  apply not_true_iff_false. rewrite forallb_forall. intros Hall.
  apply list_elem_of_In, Hall in Hline. congruence.
Qed.






(** ** Counts and order (C5) *)

Section Counting.

Implicit Types (fs : gmap string FS.node) (entries files : list (string * FS.dirent)).
Implicit Types (dataset records : list (gmap string json)) (r : gmap string json).
Implicit Types (file : string * FS.dirent) (per_file : list (list (gmap string json))).

Lemma loaded_from_exists files :
  (∀ file, file ∈ files → well_formed_file file.2 = true) →
  ∃ per_file, Forall2 loaded_from files per_file.
Proof.
  induction files as [|file files IH]; intros Hall; [by exists []|].
  destruct IH as [per_file Hrest]; [intros f Hf; apply Hall; by right|].
  destruct (proj2 (entries_of_file_is_Ok file)) as [records Hrec]; [apply Hall; by left|].
  exists (records :: per_file). constructor; [by apply entries_of_file_Ok|done].
Qed.

Lemma load_well_formed fs data_dir entries :
  fs !! data_dir = Some (FS.Directory entries) →
  (∀ name d, (name, d) ∈ entries → Path.matches_jsonl name = true →
             well_formed_file d = true) →
  ∃ per_file,
    load_hygdk_dataset fs data_dir = Ok (concat per_file) ∧
    Forall2 loaded_from (matched entries) per_file.
Proof.
  intros Hdir Hall.
  destruct (loaded_from_exists (matched entries)) as [per_file Hper].
  { intros [name d] [Hin Hm]%elem_of_matched. by apply (Hall name). }
  exists per_file. split; [|done]. apply load_Ok. exists per_file.
  by rewrite (glob_directory _ _ _ Hdir).
Qed.

Lemma loaded_from_length file records :
  loaded_from file records → length records = length (file_lines file.2).
Proof. intros [_ H]. symmetry. by eapply Forall2_length. Qed.

Lemma loaded_from_category file records r :
  loaded_from file records → r ∈ records →
  r !! "category" = Some (JString (Path.stem file.1)).
Proof.
  intros [_ H] [i Hi]%list_elem_of_lookup.
  destruct (Forall2_lookup_r _ _ _ _ _ H Hi) as (line & _ & Hentry).
  by eapply entry_of_line_category.
Qed.





End Counting.



(** ** Values (C9) and categories (C4) *)



Lemma glob_matches fs data_dir :
  Forall (λ file, Path.matches_jsonl file.1 = true) (Path.glob_jsonl fs data_dir).
Proof.
  apply Forall_forall. intros [name d]. unfold Path.glob_jsonl.
  destruct (fs !! data_dir) as [[bytes|entries]|];
    [intros H; by apply elem_of_nil in H| |intros H; by apply elem_of_nil in H].
  by intros [_ ?]%elem_of_matched.
Qed.

Lemma Forall2_impl_matched files per_file :
  Forall (λ file, Path.matches_jsonl file.1 = true) files →
  Forall2 loaded_from files per_file →
  Forall2 (λ file records,
             length records = length (file_lines file.2) ∧
             (file.1 ≠ ".jsonl" → file.1 = (Path.stem file.1 ++ ".jsonl")%string) ∧
             ∀ r, r ∈ records →
                  r !! "category" = Some (JString (Path.stem file.1)))
          files per_file.
Proof.
  intros Hmatch Hper.
  induction Hper as [|file records files per_file Hfile _ IH]; [constructor|].
  apply Forall_cons in Hmatch as [Hm Hmatch].
  constructor; [|by apply IH].
  split; [by apply loaded_from_length|]. split; [by apply stem_matched|].
  intros r Hr. by eapply loaded_from_category.
Qed.

(** C4.  The records the loader returns fall into one block per matched
    file, in listing order, one record per line of the file; every record of
    the block of a file has, as [category], the stem of the file's name,
    which is the name without its [.jsonl] ending (the name [.jsonl] itself
    has no ending to strip).  So no record has a category that is not the
    stem of a matched file. *)
Theorem load_category_is_stem fs data_dir dataset :
  load_hygdk_dataset fs data_dir = Ok dataset →
  ∃ per_file,
    dataset = concat per_file ∧
    Forall2 (λ file records,
               length records = length (file_lines file.2) ∧
               (file.1 ≠ ".jsonl" → file.1 = (Path.stem file.1 ++ ".jsonl")%string) ∧
               ∀ r, r ∈ records →
                    r !! "category" = Some (JString (Path.stem file.1)))
            (Path.glob_jsonl fs data_dir) per_file ∧
    ∀ r, r ∈ dataset →
         ∃ file, file ∈ Path.glob_jsonl fs data_dir ∧
                 r !! "category" = Some (JString (Path.stem file.1)).
Proof.
  intros Hload. pose proof Hload as (per_file & -> & Hper)%load_Ok.
  exists per_file. split; [done|]. split.
  - eapply Forall2_impl_matched; [|done]. apply glob_matches.
  - intros r Hr.
    destruct (load_elem_of _ _ _ _ Hload Hr) as (name & d & line & Hfile & _ & Hentry).
    exists (name, d). split; [done|]. by eapply entry_of_line_category.
Qed.

Lemma load_category_is_stem_witness :
  ∃ work family,
    load_hygdk_dataset Sample.counts_fs "data" = Ok (work ++ family) ∧
    length work = 12 ∧ length family = 7 ∧
    (∀ r, r ∈ work → r !! "category" = Some (JString "work")) ∧
    (∀ r, r ∈ family → r !! "category" = Some (JString "family")).
Proof.
  destruct (load_well_formed Sample.counts_fs "data" Sample.work_family)
    as (per_file & Hload & _).
  { vm_compute. reflexivity. }
  { intros name d H. each_entry H; vm_compute; done. }
  destruct (load_category_is_stem Sample.counts_fs "data" _ Hload)
    as (blocks & Heq & Hper & _).
  change (Path.glob_jsonl Sample.counts_fs "data")
    with [("work.jsonl", FS.RegularFile (Sample.good_lines 12));
          ("family.jsonl", FS.RegularFile (Sample.good_lines 7))] in Hper.
  apply Forall2_cons_inv_l in Hper as (work & rest & (Hlw & _ & Hw) & Hper & ->).
  apply Forall2_cons_inv_l in Hper as (family & rest' & (Hlf & _ & Hf) & Hper & ->).
  apply Forall2_nil_inv_l in Hper as ->.
  exists work, family. rewrite Hload, Heq. simpl. rewrite app_nil_r. split; [done|].
  split; [exact Hlw|]. split; [exact Hlf|]. split; [exact Hw|exact Hf].
Defined.

(** ** Listing order (C7) *)

Section Order.

Context {A B : Type} (R : A → B → Prop).

Lemma Forall2_Permutation_l (l l' : list A) (k : list B) :
  l ≡ₚ l' → Forall2 R l k → ∃ k', Forall2 R l' k' ∧ k ≡ₚ k'.
Proof.
  intros Hperm. revert k.
  induction Hperm as [|x l l' _ IH|x y l|l l' l'' _ IH1 _ IH2]; intros k Hk.
  - apply Forall2_nil_inv_l in Hk as ->. by exists [].
  - apply Forall2_cons_inv_l in Hk as (b & k0 & Hb & Hk0 & ->).
    destruct (IH _ Hk0) as (k' & Hk' & Hp). exists (b :: k').
    split; [by constructor|by constructor].
  - apply Forall2_cons_inv_l in Hk as (b & k0 & Hb & Hk0 & ->).
    apply Forall2_cons_inv_l in Hk0 as (c & k1 & Hc & Hk1 & ->).
    exists (c :: b :: k1). split; [by repeat constructor|apply perm_swap].
  - destruct (IH1 _ Hk) as (k' & Hk' & Hp).
    destruct (IH2 _ Hk') as (k'' & Hk'' & Hp').
    exists k''. split; [done|by etrans].
Qed.

End Order.

Lemma concat_Permutation {A} (ls ls' : list (list A)) :
  ls ≡ₚ ls' → concat ls ≡ₚ concat ls'.
Proof.
  induction 1 as [|l ls ls' _ IH|l l' ls|ls ls' ls'' _ IH1 _ IH2]; simpl.
  - done.
  - by rewrite IH.
  - rewrite !app_assoc. f_equiv. apply Permutation_app_comm.
  - by etrans.
Qed.

(** C7.  Two calls on the same directory, which the platform may list in
    two different orders: when the first returns a data set, the second
    returns one too, the two hold the same records with the same
    multiplicities, and so do their groups by category; when the first
    raises, so does the second. *)
Theorem load_deterministic_up_to_order fs data_dir entries entries' :
  fs !! data_dir = Some (FS.Directory entries) →
  entries ≡ₚ entries' →
  let fs' := <[data_dir := FS.Directory entries']> fs in
  (∀ dataset,
     load_hygdk_dataset fs data_dir = Ok dataset →
     ∃ dataset',
       load_hygdk_dataset fs' data_dir = Ok dataset' ∧
       dataset ≡ₚ dataset' ∧
       ∀ category,
         with_category category dataset ≡ₚ with_category category dataset') ∧
  (is_Raise (load_hygdk_dataset fs data_dir) →
   is_Raise (load_hygdk_dataset fs' data_dir)).
Proof.
  intros Hdir Hperm fs'. split.
  - intros dataset (per_file & -> & Hper)%load_Ok.
    rewrite (glob_directory _ _ _ Hdir) in Hper.
    destruct (Forall2_Permutation_l loaded_from _ _ _ (matched_Permutation _ _ Hperm) Hper)
      as (per_file' & Hper' & Hp).
    exists (concat per_file'). split; [|split].
    + apply load_Ok. exists per_file'. split; [done|].
      unfold fs'. by rewrite glob_insert.
    + by apply concat_Permutation.
    + intros category. unfold with_category. f_equiv. by apply concat_Permutation.
  - intros ([name d] & Hin & Hbad)%load_is_Raise.
    rewrite (glob_directory _ _ _ Hdir) in Hin.
    apply load_is_Raise. exists (name, d). split; [|done].
    unfold fs'. rewrite glob_insert. by rewrite <-(matched_Permutation _ _ Hperm).
Qed.

Lemma load_deterministic_up_to_order_witness :
  ∃ dataset dataset',
    load_hygdk_dataset Sample.counts_fs "data" = Ok dataset ∧
    load_hygdk_dataset (<["data" := FS.Directory Sample.family_work]> Sample.counts_fs)
      "data" = Ok dataset' ∧
    dataset ≡ₚ dataset' ∧
    with_category "work" dataset ≡ₚ with_category "work" dataset'.
Proof.
  destruct (load_well_formed Sample.counts_fs "data" Sample.work_family)
    as (per_file & Hload & _).
  { vm_compute. reflexivity. }
  { intros name d H. each_entry H; vm_compute; done. }
  destruct (load_deterministic_up_to_order Sample.counts_fs "data"
              Sample.work_family Sample.family_work) as [Hok _].
  { vm_compute. reflexivity. }
  { unfold Sample.work_family, Sample.family_work.
    etrans; [apply perm_skip, perm_swap|apply perm_swap]. }
  destruct (Hok _ Hload) as (dataset' & Hload' & Hp & Hcat).
  exists (concat per_file), dataset'. split; [exact Hload|].
  split; [exact Hload'|]. split; [exact Hp|exact (Hcat "work")].
Defined.

(** ** The upload (C8) *)

(** C8.  [upload_to_huggingface] reads the token and the repository
    identifier from the environment and checks them, the token first,
    before it does anything else.  When one of them is unset or empty it
    raises [ValueError] and the trace of the run is empty: nothing was
    pushed.  When both are set, the data set is converted and pushed with
    exactly that identifier, token and split; an exception of
    [push_to_hub] is the exception of the run, unchanged, and on success
    the run prints its message.  (A failure of the conversion is raised
    before anything is pushed.) *)
Theorem upload_validates_environment
    (Dataset : Type) (from_list : list (gmap string json) → result Dataset)
    (push_to_hub : Dataset → string → string → string → result unit)
    (env : gmap string string) (dataset : list (gmap string json)) (split : string) :
  let upload :=
    Hub.run (Hub.upload_to_huggingface Dataset from_list push_to_hub env dataset split) in
  (Hub.truthy (Hub.getenv env "HUGGINGFACE_TOKEN") = false →
   upload = (Raise (ValueError "HUGGINGFACE_TOKEN environment variable not set"), [])) ∧
  (Hub.truthy (Hub.getenv env "HUGGINGFACE_TOKEN") = true →
   Hub.truthy (Hub.getenv env "HUGGINGFACE_REPO_ID") = false →
   upload = (Raise (ValueError "HUGGINGFACE_REPO_ID environment variable not set"), [])) ∧
  (∀ token repo_id,
     env !! "HUGGINGFACE_TOKEN" = Some token → token ≠ "" →
     env !! "HUGGINGFACE_REPO_ID" = Some repo_id → repo_id ≠ "" →
     (∀ e, from_list dataset = Raise e → upload = (Raise e, [])) ∧
     (∀ hf e,
        from_list dataset = Ok hf →
        push_to_hub hf repo_id token split = Raise e →
        upload = (Raise e, [Hub.PushToHub repo_id token split])) ∧
     (∀ hf,
        from_list dataset = Ok hf →
        push_to_hub hf repo_id token split = Ok () →
        upload = (Ok (), [Hub.PushToHub repo_id token split;
                          Hub.Stdout ("Successfully uploaded dataset to " ++ repo_id)]))).
Proof.
  intros upload. unfold upload, Hub.run, Hub.upload_to_huggingface, Hub.getenv.
  split; [|split].
  - by intros ->.
  - by intros -> ->.
  - intros token repo_id Htoken Hne Hrepo Hne'. rewrite Htoken, Hrepo.
    destruct token as [|c token]; [done|]. destruct repo_id as [|c' repo_id]; [done|].
    simpl. split; [|split].
    + intros e He. unfold mbind, Hub.io_bind, Hub.lift. by rewrite He.
    + intros hf e Hhf He. unfold mbind, Hub.io_bind, Hub.lift, Hub.emit.
      rewrite Hhf. simpl. by rewrite He.
    + intros hf Hhf Hpush. unfold mbind, Hub.io_bind, Hub.lift, Hub.emit.
      rewrite Hhf. simpl. by rewrite Hpush.
Qed.

Lemma upload_validates_environment_witness :
  Hub.run (Hub.upload_to_huggingface _ Ok Sample.offline Sample.env_no_repo [] "train")
    = (Raise (ValueError "HUGGINGFACE_REPO_ID environment variable not set"), []) ∧
  Hub.run (Hub.upload_to_huggingface _ Ok Sample.offline Sample.env_full [] "train")
    = (Raise (ValueError "connection refused"),
       [Hub.PushToHub "user/hvadvilduhelst" "hf_secret" "train"]).
Proof.
  split.
  - apply (upload_validates_environment _ Ok Sample.offline Sample.env_no_repo [] "train").
    + vm_compute. reflexivity.
    + vm_compute. reflexivity.
  - destruct (upload_validates_environment _ Ok Sample.offline Sample.env_full [] "train")
      as (_ & _ & H).
    destruct (H "hf_secret" "user/hvadvilduhelst") as (_ & Hpush & _).
    + vm_compute. reflexivity.
    + done.
    + vm_compute. reflexivity.
    + done.
    + apply (Hpush [] (ValueError "connection refused")); reflexivity.
Defined.

(** * Beyond the claims

    Properties of the same code that the specification does not state. *)

(** ** The upload script *)

Lemma main_run_load_Raise Dataset from_list push_to_hub fs env e :
  load_hygdk_dataset fs default_data_dir = Raise e →
  Hub.run (UploadScript.main Dataset from_list push_to_hub fs env) = (Raise e, []).
Proof.
  intros H. unfold Hub.run, UploadScript.main, mbind, Hub.io_bind, Hub.lift.
  by rewrite H.
Qed.

Lemma main_run_load_Ok Dataset from_list push_to_hub fs env dataset :
  load_hygdk_dataset fs default_data_dir = Ok dataset →
  Hub.run (UploadScript.main Dataset from_list push_to_hub fs env) =
  Hub.run (Hub.upload_to_huggingface Dataset from_list push_to_hub env dataset "train").
Proof.
  intros H. unfold Hub.run, UploadScript.main, mbind at 1, Hub.io_bind at 1, Hub.lift at 1.
  by rewrite H.
Qed.

Lemma upload_run_configured Dataset from_list push_to_hub env dataset split token repo_id hf :
  env !! "HUGGINGFACE_TOKEN" = Some token → token ≠ "" →
  env !! "HUGGINGFACE_REPO_ID" = Some repo_id → repo_id ≠ "" →
  from_list dataset = Ok hf →
  Hub.run (Hub.upload_to_huggingface Dataset from_list push_to_hub env dataset split) =
  match push_to_hub hf repo_id token split with
  | Ok _ => (Ok (), [Hub.PushToHub repo_id token split;
                     Hub.Stdout ("Successfully uploaded dataset to " ++ repo_id)%string])
  | Raise e => (Raise e, [Hub.PushToHub repo_id token split])
  end.
Proof.
  intros Htoken Hne Hrepo Hne' Hhf.
  unfold Hub.run, Hub.upload_to_huggingface, Hub.getenv. rewrite Htoken, Hrepo.
  destruct token as [|c token]; [done|]. destruct repo_id as [|c' repo_id]; [done|].
  simpl. unfold mbind, Hub.io_bind, Hub.lift, Hub.emit. rewrite Hhf. simpl.
  by destruct (push_to_hub _ _ _ _) as [[]|e].
Qed.

(** X1.  The upload script on a default directory that is missing, is a
    regular file or has no entry matching [*.jsonl]: with the token and the
    repository id set, the script does not stop; it builds the data set of
    no records and pushes it to the hub, split [train]. *)
Theorem upload_main_pushes_empty_dataset
    (Dataset : Type) (from_list : list (gmap string json) → result Dataset)
    (push_to_hub : Dataset → string → string → string → result unit)
    (fs : gmap string FS.node) (env : gmap string string) (token repo_id : string)
    (hf : Dataset) :
  (∀ entries, fs !! default_data_dir = Some (FS.Directory entries) →
              ∀ name d, (name, d) ∈ entries → Path.matches_jsonl name = false) →
  env !! "HUGGINGFACE_TOKEN" = Some token → token ≠ "" →
  env !! "HUGGINGFACE_REPO_ID" = Some repo_id → repo_id ≠ "" →
  from_list [] = Ok hf →
  Hub.run (UploadScript.main Dataset from_list push_to_hub fs env) =
  match push_to_hub hf repo_id token "train" with
  | Ok _ => (Ok (), [Hub.PushToHub repo_id token "train";
                     Hub.Stdout ("Successfully uploaded dataset to " ++ repo_id)%string])
  | Raise e => (Raise e, [Hub.PushToHub repo_id token "train"])
  end.
Proof.
  intros Hdir Htoken Hne Hrepo Hne' Hhf.
  assert (load_hygdk_dataset fs default_data_dir = Ok []) as Hload.
  { destruct (fs !! default_data_dir) as [[bytes|entries]|] eqn:E.
    - unfold load_hygdk_dataset. rewrite glob_not_directory; [done|]. congruence.
    - unfold load_hygdk_dataset. rewrite (glob_directory _ _ _ E).
      assert (matched entries = []) as ->; [|done].
      apply elem_of_nil_inv. intros [name d] [Hin Hm]%elem_of_matched.
      rewrite (Hdir _ eq_refl _ _ Hin) in Hm. done.
    - unfold load_hygdk_dataset. rewrite glob_not_directory; [done|]. congruence. }
  rewrite (main_run_load_Ok _ _ _ _ _ _ Hload).
  by apply upload_run_configured.
Qed.

Lemma upload_main_pushes_empty_dataset_witness :
  Hub.run (UploadScript.main _ Ok (λ _ _ _ _, Ok ()) ∅ Sample.env_full) =
  (Ok (), [Hub.PushToHub "user/hvadvilduhelst" "hf_secret" "train";
           Hub.Stdout "Successfully uploaded dataset to user/hvadvilduhelst"]).
Proof.
  apply (upload_main_pushes_empty_dataset _ Ok (λ _ _ _ _, Ok ()) ∅ Sample.env_full
           "hf_secret" "user/hvadvilduhelst" []).
  - intros entries H. done.
  - vm_compute. reflexivity.
  - done.
  - vm_compute. reflexivity.
  - done.
  - reflexivity.
Defined.

(** X2.  The upload script on a malformed line: when a matched file of the
    default directory has a line that is not well-formed, the script ends
    with the loader's exception before it reads the environment, and
    nothing is pushed, whatever the environment holds. *)
Theorem upload_main_malformed_line
    (Dataset : Type) (from_list : list (gmap string json) → result Dataset)
    (push_to_hub : Dataset → string → string → string → result unit)
    (fs : gmap string FS.node) (env : gmap string string)
    (entries : list (string * FS.dirent)) (name : string) (d : FS.dirent) (line : string) :
  fs !! default_data_dir = Some (FS.Directory entries) →
  (name, d) ∈ entries → Path.matches_jsonl name = true →
  line ∈ file_lines d → well_formed_line line = false →
  ∃ e, load_hygdk_dataset fs default_data_dir = Raise e ∧
       Hub.run (UploadScript.main Dataset from_list push_to_hub fs env) = (Raise e, []).
Proof.
  intros Hdir Hin Hm Hline Hbad.
  destruct (load_bad_line _ _ _ _ _ _ Hdir Hin Hm Hline Hbad) as [e He].
  exists e. split; [done|]. by apply main_run_load_Raise.
Qed.

Lemma upload_main_malformed_line_witness :
  ∃ e, load_hygdk_dataset (<[default_data_dir := FS.Directory Sample.mixed_entries]> ∅)
         default_data_dir = Raise e ∧
       Hub.run (UploadScript.main _ Ok (λ _ _ _ _, Ok ())
                  (<[default_data_dir := FS.Directory Sample.mixed_entries]> ∅)
                  Sample.env_full) = (Raise e, []).
Proof.
  apply (upload_main_malformed_line _ Ok (λ _ _ _ _, Ok ()) _ Sample.env_full
           Sample.mixed_entries "mixed.jsonl"
           (FS.RegularFile (Sample.good_lines 1 ++ Sample.missing_key_line ++ Sample.newline))
           (Sample.missing_key_line ++ Sample.newline)%string).
  - apply lookup_insert_eq.
  - left.
  - vm_compute. reflexivity.
  - vm_compute. right. left.
  - vm_compute. reflexivity.
Defined.

(** ** The probe script's fallback *)

(** X3.  When the relative path [../data/hygdk] is not a directory, the
    probe script never looks at the default path: whatever is stored
    there, the run ends with "Dataset is empty or could not be loaded". *)
Theorem main_load_ignores_default_path fs node :
  (∀ entries, fs !! "../data/hygdk" ≠ Some (FS.Directory entries)) →
  Probe.main_load (<[default_data_dir := node]> fs) = Probe.Empty.
Proof.
  intros H. unfold Probe.main_load, load_hygdk_dataset at 1.
  rewrite glob_not_directory; [done|].
  intros entries. by rewrite lookup_insert_ne.
Qed.

Lemma main_load_ignores_default_path_witness :
  load_hygdk_dataset Sample.default_only_fs default_data_dir = Ok [Sample.mad_record] ∧
  Probe.main_load Sample.default_only_fs = Probe.Empty.
Proof.
  split; [vm_compute; reflexivity|].
  apply (main_load_ignores_default_path ∅
           (FS.Directory [("mad.jsonl", FS.RegularFile Sample.mad_line)])).
  intros entries. by rewrite lookup_empty.
Defined.

Lemma entries_of_file_FileNotFoundError name d n :
  entries_of_file (name, d) = Raise (FileNotFoundError n) →
  d = FS.BrokenLink ∧ n = name.
Proof.
  intros H. pose proof H as [Hun|(line & _ & Hline)]%entries_of_file_Raise.
  - destruct d as [bytes| |]; [|done|].
    + unfold entries_of_file in H. simpl in *. unfold TextIO.readlines in H.
      by rewrite Hun in H.
    + unfold entries_of_file in H. simpl in H. by injection H as ->.
  - by apply entry_of_line_Raise in Hline.
Qed.

Lemma load_FileNotFoundError fs data_dir n :
  load_hygdk_dataset fs data_dir = Raise (FileNotFoundError n) →
  ∃ entries,
    fs !! data_dir = Some (FS.Directory entries) ∧
    (n, FS.BrokenLink) ∈ entries ∧ Path.matches_jsonl n = true.
Proof.
  intros ([name d] & Hin & [-> ->]%entries_of_file_FileNotFoundError)%load_Raise.
  unfold Path.glob_jsonl in Hin.
  destruct (fs !! data_dir) as [[bytes|entries]|];
    [by apply elem_of_nil in Hin| |by apply elem_of_nil in Hin].
  exists entries. split; [done|]. by apply elem_of_matched.
Qed.

(** X4.  The probe script prints "Could not find dataset files." only if
    both directories it tries exist and each holds a dangling link whose
    name matches [*.jsonl]: a missing directory never leads there. *)
Theorem main_load_NotFound fs :
  Probe.main_load fs = Probe.NotFound →
  (∃ entries n, fs !! "../data/hygdk" = Some (FS.Directory entries) ∧
                (n, FS.BrokenLink) ∈ entries ∧ Path.matches_jsonl n = true) ∧
  (∃ entries n, fs !! default_data_dir = Some (FS.Directory entries) ∧
                (n, FS.BrokenLink) ∈ entries ∧ Path.matches_jsonl n = true).
Proof.
  unfold Probe.main_load, Probe.except_FileNotFoundError, Probe.after_load.
  destruct (load_hygdk_dataset fs "../data/hygdk") as [[|r ds]|e] eqn:E1; try done.
  destruct e; try done.
  destruct (load_hygdk_dataset fs default_data_dir) as [[|r ds]|e] eqn:E2; try done.
  destruct e; try done. intros _.
  apply load_FileNotFoundError in E1 as (entries1 & ? & ? & ?).
  apply load_FileNotFoundError in E2 as (entries2 & ? & ? & ?).
  split; eauto 10.
Qed.

Lemma main_load_NotFound_witness :
  (∃ entries n, Sample.broken_fs !! "../data/hygdk" = Some (FS.Directory entries) ∧
                (n, FS.BrokenLink) ∈ entries ∧ Path.matches_jsonl n = true) ∧
  (∃ entries n, Sample.broken_fs !! default_data_dir = Some (FS.Directory entries) ∧
                (n, FS.BrokenLink) ∈ entries ∧ Path.matches_jsonl n = true).
Proof.
  apply (main_load_NotFound Sample.broken_fs). vm_compute. reflexivity.
Defined.

(** ** Entries that cannot be read *)

Lemma entries_of_file_unreadable name d :
  readable d = false → entries_of_file (name, d) = Raise (open_error name d).
Proof.
  unfold entries_of_file. destruct d as [bytes| |]; simpl; [|done..].
  unfold TextIO.readlines. by intros ->.
Qed.

(** X5.  A matched entry that cannot be read as UTF-8 text (a
    subdirectory named [x.jsonl], a dangling link, a file that is not
    UTF-8) makes the loader raise; when it is the first matched entry, a
    subdirectory gives [IsADirectoryError] and a dangling link
    [FileNotFoundError], each with the entry's name. *)
Theorem load_unreadable_entry fs data_dir entries name d :
  fs !! data_dir = Some (FS.Directory entries) →
  (name, d) ∈ entries → Path.matches_jsonl name = true →
  readable d = false →
  is_Raise (load_hygdk_dataset fs data_dir) ∧
  (∀ others, matched entries = (name, d) :: others →
     (d = FS.Subdirectory →
      load_hygdk_dataset fs data_dir = Raise (IsADirectoryError name)) ∧
     (d = FS.BrokenLink →
      load_hygdk_dataset fs data_dir = Raise (FileNotFoundError name))).
Proof.
  intros Hdir Hin Hm Hun. split.
  - apply load_is_Raise. exists (name, d). rewrite (glob_directory _ _ _ Hdir).
    split; [by apply elem_of_matched|]. unfold well_formed_file. simpl. by rewrite Hun.
  - intros others Hfirst.
    assert (load_hygdk_dataset fs data_dir = Raise (open_error name d)) as ->.
    { rewrite load_collect, (glob_directory _ _ _ Hdir), Hfirst.
      rewrite fmap_cons. cbn [collect].
      by rewrite (entries_of_file_unreadable _ _ Hun). }
    split; by intros ->.
Qed.

Lemma load_unreadable_entry_witness :
  load_hygdk_dataset
    (<["data" := FS.Directory Sample.archive_entries]> ∅) "data"
  = Raise (IsADirectoryError "archive.jsonl").
Proof.
  destruct (load_unreadable_entry
              (<["data" := FS.Directory Sample.archive_entries]> ∅)
              "data"
              Sample.archive_entries
              "archive.jsonl" FS.Subdirectory) as [_ H].
  - apply lookup_insert_eq.
  - right. left.
  - reflexivity.
  - reflexivity.
  - apply (H [("mad.jsonl", FS.RegularFile Sample.mad_line)]); reflexivity.
Defined.

(** ** The byte order mark *)

Lemma BOM_first_line rest :
  ∃ line lines,
    file_lines (FS.RegularFile (Json.BOM ++ rest)%string) = line :: lines ∧
    is_Some (Text.strip_prefix Json.BOM line).
Proof.
  unfold file_lines, Json.BOM.
  change (TextIO.translate_newlines _)
    with (String "239" (String "187" (String "191" (TextIO.translate_newlines rest)))).
  set (r := TextIO.translate_newlines rest). clearbody r.
  change (TextIO.split_lines _) with
    (match match match TextIO.split_lines r with
                 | [] => [String "191" ""]
                 | l :: ls => String "191" l :: ls
                 end with
           | [] => [String "187" ""]
           | l :: ls => String "187" l :: ls
           end with
     | [] => [String "239" ""]
     | l :: ls => String "239" l :: ls
     end).
  destruct (TextIO.split_lines r) as [|l ls]; eexists _, _; split; try reflexivity;
    by eexists.
Qed.

Lemma entry_of_line_BOM category line :
  is_Some (Text.strip_prefix Json.BOM line) →
  entry_of_line category line = Raise BOM_error.
Proof.
  intros [r Hr]. unfold entry_of_line, Json.loads. by rewrite Hr.
Qed.

(** X6.  A matched file that starts with a UTF-8 byte order mark makes the
    loader raise: the file is opened with [utf-8], not [utf-8-sig], so the
    mark reaches [json.loads].  When the file is the first matched entry
    and valid UTF-8, the exception is the decoder's "Unexpected UTF-8
    BOM". *)
Theorem load_byte_order_mark fs data_dir entries name rest :
  fs !! data_dir = Some (FS.Directory entries) →
  (name, FS.RegularFile (Json.BOM ++ rest)%string) ∈ entries →
  Path.matches_jsonl name = true →
  is_Raise (load_hygdk_dataset fs data_dir) ∧
  (∀ others,
     matched entries = (name, FS.RegularFile (Json.BOM ++ rest)%string) :: others →
     TextIO.utf8_valid (Json.BOM ++ rest)%string = true →
     load_hygdk_dataset fs data_dir = Raise BOM_error).
Proof.
  intros Hdir Hin Hm.
  destruct (BOM_first_line rest) as (line & lines & Hlines & HBOM).
  split.
  - eapply (load_bad_line _ _ _ _ _ line Hdir Hin Hm).
    + rewrite Hlines. left.
    + unfold well_formed_line, Json.loads. destruct HBOM as [r ->]. done.
  - intros others Hfirst Hvalid.
    rewrite load_collect, (glob_directory _ _ _ Hdir), Hfirst.
    rewrite fmap_cons. cbn [collect].
    assert (entries_of_file (name, FS.RegularFile (Json.BOM ++ rest)%string)
            = Raise BOM_error) as ->; [|done].
    unfold entries_of_file. cbn [fst snd FS.open mbind result_bind].
    unfold TextIO.readlines. rewrite Hvalid. cbn [mbind result_bind].
    unfold file_lines in Hlines. rewrite Hlines, fmap_cons. cbn [collect].
    by rewrite (entry_of_line_BOM _ _ HBOM).
Qed.

Lemma load_byte_order_mark_witness :
  load_hygdk_dataset
    (<["data" := FS.Directory
         [("mad.jsonl", FS.RegularFile (Json.BOM ++ Sample.mad_line))]]> ∅) "data"
  = Raise BOM_error.
Proof.
  destruct (load_byte_order_mark
              (<["data" := FS.Directory
                   [("mad.jsonl", FS.RegularFile (Json.BOM ++ Sample.mad_line))]]> ∅)
              "data"
              [("mad.jsonl", FS.RegularFile (Json.BOM ++ Sample.mad_line))]
              "mad.jsonl" Sample.mad_line) as [_ H].
  - apply lookup_insert_eq.
  - left.
  - reflexivity.
  - apply (H []); reflexivity.
Defined.

(** ** Line ends and other entries *)









(** X8.  Entries whose names do not match [*.jsonl], whatever they are and
    wherever the listing has them, do not change the loader's result. *)
Theorem load_ignores_other_entries fs data_dir before extra after :
  fs !! data_dir = Some (FS.Directory (before ++ after)) →
  (∀ name d, (name, d) ∈ extra → Path.matches_jsonl name = false) →
  load_hygdk_dataset (<[data_dir := FS.Directory (before ++ extra ++ after)]> fs) data_dir
  = load_hygdk_dataset fs data_dir.
Proof.
  intros Hdir Hextra. unfold load_hygdk_dataset.
  rewrite glob_insert, (glob_directory _ _ _ Hdir). f_equal.
  unfold matched. rewrite !filter_app.
  assert (filter (λ e : string * FS.dirent, Path.matches_jsonl e.1) extra = []) as ->; [|done].
  apply elem_of_nil_inv. intros [name d] [Hm Hin]%list_elem_of_filter.
  simpl in Hm. by rewrite (Hextra _ _ Hin) in Hm.
Qed.

Lemma load_ignores_other_entries_witness :
  load_hygdk_dataset
    (<["data" := FS.Directory
         ([("mad.jsonl", FS.RegularFile Sample.mad_line)]
          ++ Sample.unmatched_entries
          ++ [])]> Sample.mad_fs) "data"
  = load_hygdk_dataset Sample.mad_fs "data".
Proof.
  apply (load_ignores_other_entries Sample.mad_fs "data"
           [("mad.jsonl", FS.RegularFile Sample.mad_line)]
           Sample.unmatched_entries []).
  - vm_compute. reflexivity.
  - intros name d H. each_entry H; reflexivity.
Defined.

(** ** The quality check of the probe script *)

Section Quality.

Variable other_eq : json → json → bool.


Lemma for_item_app i l1 l2 st :
  Checks.for_item other_eq i (l1 ++ l2) st =
  st' ← Checks.for_item other_eq i l1 st; Checks.for_item other_eq (i + length l1) l2 st'.
Proof.
  revert i st. induction l1 as [|item l1 IH]; intros i st.
  - simpl. by rewrite Nat.add_0_r.
  - simpl. destruct (Checks.check_item other_eq i item st) as [st'|e]; [|done]. simpl.
    rewrite IH. by replace (S i + length l1) with (i + S (length l1)) by lia.
Qed.

Lemma flagged_from_snoc start P ts t :
  flagged_from start P (ts ++ [t]) =
  flagged_from start P ts ++
    (if P (start + length ts) t then [(start + length ts, JString (question t))] else []).
Proof.
  revert start. induction ts as [|t' ts IH]; intros start.
  - simpl. by rewrite Nat.add_0_r, app_nil_r.
  - simpl. rewrite IH, <-app_assoc.
    by replace (S start + length ts) with (start + S (length ts)) by lia.
Qed.

Lemma flagged_from_ext start P Q ts :
  (∀ j t, ts !! j = Some t → P (start + j) t = Q (start + j) t) →
  flagged_from start P ts = flagged_from start Q ts.
Proof.
  revert start. induction ts as [|t ts IH]; intros start H; [done|].
  simpl. pose proof (H 0 t eq_refl) as H0. rewrite Nat.add_0_r in H0.
  rewrite H0. f_equal.
  apply IH. intros j t' Hj. replace (S start + j) with (start + S j) by lia.
  by apply H.
Qed.

Lemma elem_of_flagged_from start P ts i v :
  (i, v) ∈ flagged_from start P ts ↔
  ∃ j t, i = start + j ∧ ts !! j = Some t ∧ P i t = true ∧ v = JString (question t).
Proof.
  revert start. induction ts as [|t ts IH]; intros start.
  - simpl. split; [by intros ?%elem_of_nil|]. by intros (j & t & _ & ? & _).
  - simpl. rewrite elem_of_app, IH. split.
    + intros [H|(j & t' & -> & Hj & HP & ->)].
      * destruct (P start t) eqn:E; [|by apply elem_of_nil in H].
        apply list_elem_of_singleton in H as [= -> ->].
        exists 0, t. by rewrite Nat.add_0_r.
      * exists (S j), t'. split; [lia|]. split; [done|].
        by replace (start + S j) with (S start + j) by lia.
    + intros ([|j] & t' & -> & Hj & HP & ->).
      * left. simpl in Hj. injection Hj as ->. rewrite Nat.add_0_r in *.
        rewrite HP. left.
      * right. exists j, t'. split; [lia|]. split; [done|].
        by replace (S start + j) with (start + S j) by lia.
Qed.

Lemma elem_of_flagged P ts i v :
  (i, v) ∈ flagged P ts ↔
  ∃ t, ts !! i = Some t ∧ P i t = true ∧ v = JString (question t).
Proof.
  unfold flagged. rewrite elem_of_flagged_from. split.
  - intros (j & t & -> & ?). by exists t.
  - intros (t & ?). by exists i, t.
Qed.

Lemma existsb_eq_strings q ss :
  existsb (Checks.eq other_eq (JString q)) (JString <$> ss) = bool_decide (q ∈ ss).
Proof.
  induction ss as [|s ss IH]; [done|].
  rewrite fmap_cons. cbn [existsb]. rewrite IH. cbn [Checks.eq].
  destruct (String.eqb_spec q s) as [->|Hne].
  - simpl. symmetry. apply bool_decide_eq_true. left.
  - simpl. apply bool_decide_ext. rewrite elem_of_cons. naive_solver.
Qed.

Lemma texts_Some item q a b :
  texts item = Some (q, a, b) ↔
  item !! "questions" = Some (JString q) ∧ item !! "answer_A" = Some (JString a) ∧
  item !! "answer_B" = Some (JString b).
Proof.
  unfold texts. split.
  - repeat case_match; try done. by intros [= -> -> ->].
  - by intros (-> & -> & ->).
Qed.

(** One turn of the loop on a record of texts. *)
Lemma check_item_texts i item t f ss :
  texts item = Some t →
  Checks.check_item other_eq i item {| Checks.found := f; Checks.seen_questions := JString <$> ss |} =
  let v := (i, JString (question t)) in
  let dup := bool_decide (question t ∈ ss) in
  Checks.Return
    {| Checks.found :=
         {| Checks.duplicate_questions :=
              Checks.duplicate_questions f ++ (if dup then [v] else []);
            Checks.very_short_questions :=
              Checks.very_short_questions f
                ++ (if Unicode.len (question t) <? 20 then [v] else []);
            Checks.very_long_questions :=
              Checks.very_long_questions f
                ++ (if 200 <? Unicode.len (question t) then [v] else []);
            Checks.duplicate_answers :=
              Checks.duplicate_answers f ++ (if String.eqb t.1.2 t.2 then [v] else []);
            Checks.missing_content :=
              Checks.missing_content f ++ (if blank t then [v] else []) |};
       Checks.seen_questions :=
         JString <$> (if dup then ss else question t :: ss) |}.
Proof.
  destruct t as [[q a] b]. intros (Hq & Ha & Hb)%texts_Some.
  unfold Checks.check_item, Checks.subscript. rewrite Hq, Ha, Hb. 
  cbn [mbind Checks.py_bind Checks.hash Checks.len Checks.not_strip Checks.found
       Checks.seen_questions].
  rewrite existsb_eq_strings. unfold question, blank. cbn [fst snd].
  cbn [Checks.eq].
  assert ((if Unicode.len q <? 20 then [] else
           if 200 <? Unicode.len q then [(i, JString q)] else [])
          = (if 200 <? Unicode.len q then [(i, JString q)] else [])) as ->.
  { destruct (Nat.ltb_spec (Unicode.len q) 20), (Nat.ltb_spec 200 (Unicode.len q));
      try done; lia. }
  assert (match (if Unicode.strip_is_empty q then Checks.Return true else
                 if Unicode.strip_is_empty a then Checks.Return true
                 else Checks.Return (Unicode.strip_is_empty b)) with
          | Checks.Return x => Checks.Return x
          | Checks.Throw e => Checks.Throw e
          end = Checks.Return (Unicode.strip_is_empty q || Unicode.strip_is_empty a
                               || Unicode.strip_is_empty b)) as Hblank.
  { by destruct (Unicode.strip_is_empty q), (Unicode.strip_is_empty a). }
  destruct (Unicode.strip_is_empty q), (Unicode.strip_is_empty a),
    (Unicode.strip_is_empty b), (bool_decide (q ∈ ss)); reflexivity.
Qed.

Lemma repeats_snoc ts t :
  flagged (repeats (ts ++ [t])) (ts ++ [t]) =
  flagged (repeats ts) ts ++
    (if bool_decide (question t ∈ question <$> ts)
     then [(length ts, JString (question t))] else []).
Proof.
  unfold flagged. rewrite flagged_from_snoc. simpl. f_equal.
  - apply flagged_from_ext. intros j t' Hj. simpl. unfold repeats.
    apply lookup_lt_Some in Hj. by rewrite take_app_le by lia.
  - unfold repeats. by rewrite take_app_length.
Qed.

(** The loop on records of texts: it does not raise, and it computes the
    five comprehensions. *)
Lemma for_item_texts dataset ts :
  Forall2 (λ item t, texts item = Some t) dataset ts →
  ∃ ss, (∀ q, q ∈ ss ↔ q ∈ question <$> ts) ∧
        Checks.for_item other_eq 0 dataset initial_state =
        Checks.Return {| Checks.found := issues_of_texts ts;
                         Checks.seen_questions := JString <$> ss |}.
Proof.
  revert dataset. induction ts as [|t ts IH] using rev_ind; intros dataset H.
  - apply Forall2_nil_inv_r in H as ->. by exists [].
  - apply Forall2_app_inv_r in H as (d1 & d2 & H1 & H2 & ->).
    apply Forall2_cons_inv_r in H2 as (item & d3 & Ht & ->%Forall2_nil_inv_r & ->).
    destruct (IH _ H1) as (ss & Hss & Hrun).
    rewrite for_item_app, Hrun. cbn [mbind Checks.py_bind Checks.for_item].
    rewrite (check_item_texts _ _ _ _ _ Ht). cbn zeta. cbn [mbind Checks.py_bind].
    rewrite (Forall2_length _ _ _ H1).
    assert (bool_decide (question t ∈ ss) = bool_decide (question t ∈ question <$> ts))
      as -> by (apply bool_decide_ext, Hss).
    exists (if bool_decide (question t ∈ question <$> ts) then ss else question t :: ss).
    split.
    + intros q. rewrite fmap_app, elem_of_app. simpl. rewrite list_elem_of_singleton.
      destruct (bool_decide_reflect (question t ∈ question <$> ts)) as [Hin|Hin].
      * rewrite Hss. naive_solver.
      * rewrite elem_of_cons, Hss. naive_solver.
    + f_equal. f_equal. unfold issues_of_texts. cbn [Checks.duplicate_questions Checks.very_short_questions
        Checks.very_long_questions Checks.duplicate_answers Checks.missing_content].
      rewrite repeats_snoc. unfold flagged. by rewrite !flagged_from_snoc.
Qed.

(** *** The report *)

Lemma for_entry_strings entries out :
  strings_only entries →
  ∃ out', Checks.for_entry entries out = (Checks.Return (), out ++ out') ∧
          sum_list (accounted <$> out') = length entries.
Proof.
  revert out. induction entries as [|[idx content] entries IH]; intros out H.
  - exists []. by rewrite app_nil_r.
  - apply Forall_cons in H as [[s Hs] H]. simpl in Hs. subst content.
    destruct (IH (out ++ [Checks.IssueEntry idx (JString (Unicode.take 80 s))]) H)
      as (out' & Hrun & Hsum).
    exists (Checks.IssueEntry idx (JString (Unicode.take 80 s)) :: out').
    split; [|simpl; f_equal; exact Hsum].
    cbn [Checks.for_entry]. unfold mbind, Checks.io_bind, Checks.lift, Checks.print.
    cbn [Checks.slice_to]. fold (Checks.for_entry entries).
    rewrite Hrun. by rewrite <-app_assoc.
Qed.

Lemma strings_only_take n l : strings_only l → strings_only (take n l).
Proof. apply Forall_take. Qed.

Lemma for_issue_type_strings types out :
  Forall strings_only types.*2 →
  ∃ out', Checks.for_issue_type types out = (Checks.Return (), out ++ out') ∧
          sum_list (accounted <$> out') = sum_list (length <$> types.*2).
Proof.
  revert out. induction types as [|[issue_type issue_list] types IH]; intros out H.
  - exists []. by rewrite app_nil_r.
  - rewrite fmap_cons in H. apply Forall_cons in H as [Hl H]. simpl in Hl.
    cbn [Checks.for_issue_type]. destruct issue_list as [|e l].
    + destruct (IH out H) as (out' & Hrun & Hsum). exists out'. split; [|done].
      unfold mbind at 1, Checks.io_bind at 1. unfold mret at 1, Checks.io_ret at 1.
      done.
    + set (entries := e :: l) in *.
      set (head := Checks.IssueType
                     (Checks.title (Checks.replace_underscores issue_type))
                     (length entries)).
      destruct (for_entry_strings (take 3 entries) (out ++ [head])
                  (strings_only_take 3 _ Hl)) as (shown & Hshown & Hn).
      set (more := if 3 <? length entries then [Checks.More (length entries - 3)] else []).
      destruct (IH (out ++ [head] ++ shown ++ more) H) as (out' & Hrun & Hsum).
      exists ([head] ++ shown ++ more ++ out'). split.
      * unfold mbind, Checks.io_bind, Checks.print. fold head.
        rewrite Hshown. unfold more in *.
        destruct (3 <? length entries).
        -- rewrite <-!app_assoc in *. simpl in *. rewrite Hrun. by rewrite <-?app_assoc.
        -- unfold mret, Checks.io_ret. rewrite ?app_nil_r, <-?app_assoc in *.
           simpl in *. by rewrite Hrun.
      * rewrite !fmap_app, !sum_list_with_app, Hn, Hsum, length_take, !fmap_cons.
        clearbody entries.
        assert (sum_list (accounted <$> more) = length entries - 3) as ->.
        { unfold more. destruct (Nat.ltb_spec 3 (length entries)); simpl; lia. }
        cbn [sum_list_with fmap list_fmap accounted head snd id]. lia.
Qed.

(** *** The loop on arbitrary records *)

Lemma strings_only_snoc l (b : bool) i s :
  strings_only l → strings_only (l ++ (if b then [(i, JString s)] else [])).
Proof.
  intros H. apply Forall_app. split; [done|].
  destruct b; [|by apply Forall_nil]. apply Forall_singleton. by exists s.
Qed.

(** A turn of the loop that does not raise has met a question that is a
    [str], and has added nothing else to the lists. *)
Lemma check_item_Return i item st st' :
  Checks.check_item other_eq i item st = Checks.Return st' →
  ∃ s, item !! "questions" = Some (JString s) ∧
       (all_strings (Checks.found st) → all_strings (Checks.found st')).
Proof.
  unfold Checks.check_item, Checks.subscript.
  destruct (item !! "questions") as [v|]; [|done]. cbn [mbind Checks.py_bind].
  destruct v as [| | | |s| |]; try done. cbn [Checks.hash Checks.len mbind Checks.py_bind].
  destruct (item !! "answer_A") as [a|]; [|done].
  destruct (item !! "answer_B") as [b|]; [|done]. cbn [mbind Checks.py_bind].
  match goal with
  | |- ?m ≫= _ = _ → _ => destruct m as [missing|]; [|done]
  end.
  cbn [mbind Checks.py_bind]. intros [= <-]. exists s. split; [done|].
  unfold all_strings, Checks.items. cbn [Checks.found fmap list_fmap snd
    Checks.duplicate_questions Checks.very_short_questions Checks.very_long_questions
    Checks.duplicate_answers Checks.missing_content].
  rewrite !Forall_cons. intros (H1 & H2 & H3 & H4 & H5 & _).
  repeat split; try (by apply strings_only_snoc); [|by apply Forall_nil].
  destruct (Unicode.len s <? 20); [by rewrite app_nil_r|by apply strings_only_snoc].
Qed.

Lemma for_item_Return i dataset st st' :
  Checks.for_item other_eq i dataset st = Checks.Return st' →
  all_strings (Checks.found st) → all_strings (Checks.found st').
Proof.
  revert i st. induction dataset as [|item dataset IH]; intros i st.
  - by intros [= <-].
  - simpl. destruct (Checks.check_item other_eq i item st) as [st1|] eqn:E; [|done].
    simpl. intros Hrun Hst. apply check_item_Return in E as (_ & _ & H).
    eapply IH; eauto.
Qed.

Lemma total_issues_items f :
  sum_list (length <$> (Checks.items f).*2) = total_issues f.
Proof. unfold total_issues. simpl. lia. Qed.

(** The whole function, in terms of its loop: an exception of the loop
    ends the run after the header; otherwise the report follows, and it
    cannot raise. *)
Lemma detect_quality_issues_Throw dataset e :
  Checks.for_item other_eq 0 dataset initial_state = Checks.Throw e →
  Checks.run (Checks.detect_quality_issues other_eq dataset) = (Checks.Throw e, quality_header).
Proof.
  intros H. unfold Checks.run, Checks.detect_quality_issues.
  unfold mbind, Checks.io_bind, Checks.print, Checks.lift. simpl.
  fold initial_state. by rewrite H.
Qed.

Lemma detect_quality_issues_Return dataset st :
  Checks.for_item other_eq 0 dataset initial_state = Checks.Return st →
  ∃ report,
    Checks.run (Checks.detect_quality_issues other_eq dataset) =
      (Checks.Return (Checks.found st), quality_header ++ report) ∧
    sum_list (accounted <$> report) = total_issues (Checks.found st).
Proof.
  intros H. pose proof (for_item_Return _ _ _ _ H) as Hall.
  unfold Checks.run, Checks.detect_quality_issues.
  unfold mbind at 1 2 3 4, Checks.io_bind at 1 2 3 4, Checks.print at 1 2 3, Checks.lift.
  cbn [app]. fold quality_header. fold initial_state. rewrite H.
  rewrite total_issues_items. unfold mbind at 1, Checks.io_bind at 1.
  destruct (Nat.eqb_spec (total_issues (Checks.found st)) 0) as [Hzero|Hpos].
  - eexists [_]. unfold Checks.print, mret, Checks.io_ret. split; [reflexivity|].
    by rewrite Hzero.
  - destruct (for_issue_type_strings (Checks.items (Checks.found st))
                (quality_header ++ [Checks.Found (total_issues (Checks.found st))]))
      as (out' & Hrun & Hsum).
    { apply Hall. unfold all_strings. simpl. repeat constructor. }
    exists (Checks.Found (total_issues (Checks.found st)) :: out'). split.
    + unfold mbind, Checks.io_bind, Checks.print, mret, Checks.io_ret.
      rewrite Hrun. by rewrite <-app_assoc.
    + rewrite fmap_cons. cbn [sum_list_with accounted id]. rewrite Hsum.
      by rewrite total_issues_items.
Qed.

End Quality.

Lemma repeats_count ts :
  length (flagged (repeats ts) ts) + size (list_to_set (question <$> ts) : gset string)
  = length ts.
Proof.
  induction ts as [|t ts IH] using rev_ind; [done|].
  rewrite repeats_snoc, !length_app, fmap_app, list_to_set_app_L. simpl.
  rewrite union_empty_r_L.
  destruct (bool_decide_reflect (question t ∈ question <$> ts)) as [Hin|Hin].
  - assert (list_to_set (question <$> ts) ∪ {[question t]}
            = (list_to_set (question <$> ts) : gset string)) as ->; [|simpl; lia].
    rewrite union_comm_L.
    apply subseteq_union_1_L, singleton_subseteq_l, elem_of_list_to_set, Hin.
  - rewrite size_union, size_singleton; [simpl; lia|].
    apply disjoint_singleton_r. by rewrite elem_of_list_to_set.
Qed.

Lemma repeats_true ts i t :
  ts !! i = Some t →
  repeats ts i t = true ↔ ∃ j t', j < i ∧ ts !! j = Some t' ∧ question t' = question t.
Proof.
  intros Hi. unfold repeats. rewrite bool_decide_eq_true, list_elem_of_fmap. split.
  - intros (t' & Hq & [j Hj]%list_elem_of_lookup).
    apply lookup_take_Some in Hj as [Hj Hlt]. by exists j, t'.
  - intros (j & t' & Hlt & Hj & Hq). exists t'. split; [done|].
    apply list_elem_of_lookup. exists j. by apply lookup_take_Some.
Qed.

Section QualityChecks.

Variable other_eq : json → json → bool.

Lemma check_item_question_not_str i item st v :
  item !! "questions" = Some v → is_str v = false →
  ∃ msg, Checks.check_item other_eq i item st = Checks.Throw (Checks.Builtin (TypeError msg)).
Proof.
  intros Hq Hv. unfold Checks.check_item, Checks.subscript. rewrite Hq.
  destruct v; try done; eexists; reflexivity.
Qed.



(** A record whose question is not a [str] ends the loop, wherever it
    stands. *)
Lemma for_item_question_not_str i dataset st item v :
  item ∈ dataset → item !! "questions" = Some v → is_str v = false →
  ∃ e, Checks.for_item other_eq i dataset st = Checks.Throw e.
Proof.
  intros Hin Hq Hv. revert i st.
  induction dataset as [|item' dataset IH]; intros i st; [by apply elem_of_nil in Hin|].
  simpl. destruct (Checks.check_item other_eq i item' st) as [st'|e'] eqn:E; [|by eexists].
  apply elem_of_cons in Hin as [<-|Hin]; [|by apply IH].
  apply check_item_Return in E as (s & Hs & _). rewrite Hq in Hs.
  injection Hs as ->. done.
Qed.

(** The loop up to the first record that raises. *)
Lemma for_item_texts_Throw before ts item after e :
  Forall2 (λ item t, texts item = Some t) before ts →
  (∀ st, Checks.check_item other_eq (length before) item st = Checks.Throw e) →
  Checks.for_item other_eq 0 (before ++ item :: after) initial_state = Checks.Throw e.
Proof.
  intros Hts He. destruct (for_item_texts other_eq _ _ Hts) as (ss & _ & Hrun).
  rewrite for_item_app, Hrun. simpl. by rewrite He.
Qed.


End QualityChecks.



Lemma load_Ok_elem fs data_dir dataset name d line :
  load_hygdk_dataset fs data_dir = Ok dataset →
  (name, d) ∈ Path.glob_jsonl fs data_dir → line ∈ file_lines d →
  ∃ r, r ∈ dataset ∧ entry_of_line (Path.stem name) line = Ok r.
Proof.
  intros (per_file & -> & Hall)%load_Ok [i Hi]%list_elem_of_lookup [j Hj]%list_elem_of_lookup.
  destruct (Forall2_lookup_l _ _ _ _ _ Hall Hi) as (records & Hrec & _ & Hlines).
  destruct (Forall2_lookup_l _ _ _ _ _ Hlines Hj) as (r & Hr & Hentry).
  exists r. split; [|done]. apply elem_of_concat. exists records.
  split; by eapply list_elem_of_lookup_2.
Qed.



(** X10.  Duplicate questions, counted: on such a data set the list
    [duplicate_questions] holds one entry per record beyond the first for
    every distinct question, so its length and the number of distinct
    questions add up to the number of records; a record is listed exactly
    when an earlier record asks the same question. *)
Theorem quality_check_duplicate_questions other_eq dataset ts issues out :
  Forall2 (λ item t, texts item = Some t) dataset ts →
  Checks.run (Checks.detect_quality_issues other_eq dataset) = (Checks.Return issues, out) →
  length (Checks.duplicate_questions issues)
    + size (list_to_set (question <$> ts) : gset string) = length dataset ∧
  ∀ i v, (i, v) ∈ Checks.duplicate_questions issues ↔
         ∃ t, ts !! i = Some t ∧ v = JString (question t) ∧
              ∃ j t', j < i ∧ ts !! j = Some t' ∧ question t' = question t.
Proof.
  intros Hts Hrun. pose proof (Forall2_length _ _ _ Hts) as Hlen.
  destruct (for_item_texts other_eq _ _ Hts) as (ss & _ & Hloop).
  destruct (detect_quality_issues_Return other_eq _ _ Hloop) as (report & H & _).
  rewrite H in Hrun. injection Hrun as <- _. simpl. split.
  - rewrite Hlen. apply repeats_count.
  - intros i v. rewrite elem_of_flagged. split.
    + intros (t & Hi & Hrep & ->). exists t. split; [done|]. split; [done|].
      by apply repeats_true.
    + intros (t & Hi & -> & Hrep). exists t. split; [done|]. split; [|done].
      by apply repeats_true.
Qed.

Lemma quality_check_duplicate_questions_witness :
  length (Checks.duplicate_questions (issues_of_texts Sample.quiz_texts))
    + size (list_to_set (question <$> Sample.quiz_texts) : gset string)
  = length Sample.quiz.
Proof.
  destruct (quality_check_duplicate_questions Sample.never_equal Sample.quiz
              Sample.quiz_texts (issues_of_texts Sample.quiz_texts)
              (Checks.run (Checks.detect_quality_issues Sample.never_equal Sample.quiz)).2)
    as [H _].
  - repeat constructor.
  - vm_compute. reflexivity.
  - exact H.
Defined.

(** X11.  A question that is not a [str] (null, a number, a boolean, a list
    or an object, all of which the loader passes on) makes
    [detect_quality_issues] raise [TypeError] when its record is reached:
    nothing but the header has been printed, and the issues found so far
    are lost. *)
Theorem quality_check_question_not_str other_eq before ts item v after :
  Forall2 (λ item t, texts item = Some t) before ts →
  item !! "questions" = Some v → is_str v = false →
  ∃ msg,
    Checks.run (Checks.detect_quality_issues other_eq (before ++ item :: after)) =
    (Checks.Throw (Checks.Builtin (TypeError msg)), quality_header).
Proof.
  intros Hts Hq Hv.
  destruct (check_item_question_not_str other_eq (length before) item initial_state v Hq Hv)
    as [msg Hmsg].
  exists msg. apply detect_quality_issues_Throw, (for_item_texts_Throw _ _ ts); [done|].
  intros st. destruct (check_item_question_not_str other_eq (length before) item st v Hq Hv)
    as [msg' Hmsg'].
  rewrite Hmsg'. unfold Checks.check_item, Checks.subscript in Hmsg, Hmsg'.
  rewrite Hq in Hmsg, Hmsg'. destruct v; try done; simpl in *; congruence.
Qed.

Lemma quality_check_question_not_str_witness :
  load_hygdk_dataset Sample.number_fs "data" =
    Ok [record (JString Sample.mad_question) (JString "Varm mad") (JString "Kold mad") "x";
        record (JInt 7) (JString "a") (JString "b") "x"] ∧
  ∃ msg,
    Checks.run (Checks.detect_quality_issues Sample.never_equal
      ([record (JString Sample.mad_question) (JString "Varm mad") (JString "Kold mad") "x"]
       ++ record (JInt 7) (JString "a") (JString "b") "x" :: [])) =
    (Checks.Throw (Checks.Builtin (TypeError msg)), quality_header).
Proof.
  split; [vm_compute; reflexivity|].
  apply (quality_check_question_not_str Sample.never_equal
           [record (JString Sample.mad_question) (JString "Varm mad") (JString "Kold mad") "x"]
           [(Sample.mad_question, "Varm mad", "Kold mad")]
           (record (JInt 7) (JString "a") (JString "b") "x") (JInt 7) []).
  - repeat constructor.
  - reflexivity.
  - reflexivity.
Defined.

(** X12.  An answer that is not a [str] makes [detect_quality_issues] raise
    [AttributeError] (it has no [strip]) when the record is reached,
    provided the question of the record is not blank and, for [answer_B],
    [answer_A] is not blank either. *)
Theorem quality_check_answer_not_str other_eq before ts item s a b after :
  Forall2 (λ item t, texts item = Some t) before ts →
  item !! "questions" = Some (JString s) →
  item !! "answer_A" = Some a → item !! "answer_B" = Some b →
  Unicode.strip_is_empty s = false →
  is_str a = false ∨
    (∃ sa, a = JString sa ∧ Unicode.strip_is_empty sa = false) ∧ is_str b = false →
  ∃ msg,
    Checks.run (Checks.detect_quality_issues other_eq (before ++ item :: after)) =
    (Checks.Throw (Checks.AttributeError msg), quality_header).
Proof.
  intros Hts Hq Ha Hb Hs Hab.
  assert (∃ msg, ∀ st, Checks.check_item other_eq (length before) item st
                       = Checks.Throw (Checks.AttributeError msg)) as [msg Hmsg].
  { unfold Checks.check_item, Checks.subscript. rewrite Hq, Ha, Hb.
    cbn [mbind Checks.py_bind Checks.hash Checks.len Checks.not_strip]. rewrite Hs.
    destruct Hab as [Hna|[(sa & -> & Hsa) Hnb]].
    - destruct a; try done; eexists; intros st; reflexivity.
    - cbn [mbind Checks.py_bind Checks.not_strip]. rewrite Hsa.
      destruct b; try done; eexists; intros st; reflexivity. }
  exists msg. by apply detect_quality_issues_Throw, (for_item_texts_Throw _ _ ts).
Qed.

Lemma quality_check_answer_not_str_witness :
  ∃ msg,
    Checks.run (Checks.detect_quality_issues Sample.never_equal
      (Sample.quiz ++ record (JString "Hav eller bjerge?") (JString "Hav") JNull "x"
         :: Sample.quiz)) =
    (Checks.Throw (Checks.AttributeError msg), quality_header).
Proof.
  apply (quality_check_answer_not_str Sample.never_equal Sample.quiz Sample.quiz_texts
           (record (JString "Hav eller bjerge?") (JString "Hav") JNull "x")
           "Hav eller bjerge?" (JString "Hav") JNull Sample.quiz).
  - repeat constructor.
  - reflexivity.
  - reflexivity.
  - reflexivity.
  - reflexivity.
  - right. split; [|reflexivity]. exists "Hav". split; reflexivity.
Defined.





(** X15.  The report accounts for every issue: whenever
    [detect_quality_issues] returns, the output is the header followed by
    a report in which the entries shown (at most three per list) and the
    counts of the "... and n more" lines add up to the number of entries
    in the five lists, the number the report announces. *)
Theorem quality_report_accounts_for_every_issue other_eq dataset issues out :
  Checks.run (Checks.detect_quality_issues other_eq dataset) = (Checks.Return issues, out) →
  ∃ report, out = quality_header ++ report ∧
            sum_list (accounted <$> report) = total_issues issues.
Proof.
  intros Hrun.
  destruct (Checks.for_item other_eq 0 dataset initial_state) as [st|e] eqn:Hloop.
  - destruct (detect_quality_issues_Return other_eq _ _ Hloop) as (report & H & Hsum).
    rewrite H in Hrun. injection Hrun as <- <-. by exists report.
  - rewrite (detect_quality_issues_Throw other_eq _ _ Hloop) in Hrun. done.
Qed.

Lemma quality_report_accounts_for_every_issue_witness :
  ∃ report,
    (Checks.run (Checks.detect_quality_issues Sample.never_equal Sample.quiz)).2
      = quality_header ++ report ∧
    sum_list (accounted <$> report) = 4.
Proof.
  apply (quality_report_accounts_for_every_issue Sample.never_equal Sample.quiz
           (issues_of_texts Sample.quiz_texts)
           (Checks.run (Checks.detect_quality_issues Sample.never_equal Sample.quiz)).2).
  vm_compute. reflexivity.
Defined.



(** X17.  What the loader accepts, the quality check need not: if some
    line of a matched file holds a question that is not a string, the
    quality check of the loaded data set raises, after the header. *)
Theorem load_then_quality_check_raises other_eq fs data_dir dataset name d line members v :
  load_hygdk_dataset fs data_dir = Ok dataset →
  (name, d) ∈ Path.glob_jsonl fs data_dir → line ∈ file_lines d →
  Json.loads line = Ok (JObject members) →
  members !! "question" = Some v → is_str v = false →
  ∃ e, Checks.run (Checks.detect_quality_issues other_eq dataset)
       = (Checks.Throw e, quality_header).
Proof.
  intros Hload Hin Hline Hloads Hq Hv.
  destruct (load_Ok_elem _ _ _ _ _ _ Hload Hin Hline) as (r & Hr & Hentry).
  apply entry_of_line_Ok in Hentry as (m & q & a & b & Hm & Hq' & _ & _ & ->).
  rewrite Hloads in Hm. injection Hm as <-. rewrite Hq in Hq'. injection Hq' as <-.
  destruct (for_item_question_not_str other_eq 0 dataset initial_state _ v Hr)
    as [e He]; [done..|].
  exists e. by apply detect_quality_issues_Throw.
Qed.

Lemma load_then_quality_check_raises_witness :
  ∃ e, Checks.run (Checks.detect_quality_issues Sample.never_equal
         [record JNull (JString "a") (JString "b") "x"])
       = (Checks.Throw e, quality_header).
Proof.
  apply (load_then_quality_check_raises Sample.never_equal Sample.null_fs "data"
           [record JNull (JString "a") (JString "b") "x"] "x.jsonl"
           (FS.RegularFile (json_line "null" (quoted "a") (quoted "b")))
           (json_line "null" (quoted "a") (quoted "b"))
           {[ "question" := JNull; "answer_A" := JString "a"; "answer_B" := JString "b" ]}
           JNull).
  - vm_compute. reflexivity.
  - vm_compute. left.
  - vm_compute. left.
  - vm_compute. reflexivity.
  - reflexivity.
  - reflexivity.
Defined.

(** ** The structure analysis of the probe script *)

Lemma elem_of_for_field item fields acc field :
  field ∈ Checks.for_field item fields acc ↔
  field ∈ acc ∨ (field ∈ fields ∧ item !! field = None).
Proof.
  revert acc. induction fields as [|f fields IH]; intros acc.
  - simpl. split; [by left|]. intros [?|[?%elem_of_nil ?]]; done.
  - simpl. rewrite IH, elem_of_cons. destruct (item !! f) as [v|] eqn:E.
    + split; [naive_solver|]. intros [?|[[->|?] ?]]; [by left|congruence|by right].
    + rewrite elem_of_app, list_elem_of_singleton. naive_solver.
Qed.

Lemma elem_of_for_checked_item items fields acc field :
  field ∈ Checks.for_checked_item items fields acc ↔
  field ∈ acc ∨ (field ∈ fields ∧ ∃ item, item ∈ items ∧ item !! field = None).
Proof.
  revert acc. induction items as [|item items IH]; intros acc.
  - simpl. split; [by left|]. intros [?|[_ (? & ?%elem_of_nil & _)]]; done.
  - simpl. rewrite IH, elem_of_for_field. setoid_rewrite elem_of_cons. naive_solver.
Qed.

Lemma for_checked_item_nil items :
  Checks.for_checked_item items ["questions"; "answer_A"; "answer_B"; "category"] [] = [] ↔
  Forall (λ item, complete item = true) items.
Proof.
  rewrite Forall_forall. split.
  - intros Hnil item Hin. unfold complete. apply forallb_forall. intros field Hf%list_elem_of_In.
    apply bool_decide_eq_true. destruct (item !! field) eqn:E; [by eexists|].
    assert (field ∈ Checks.for_checked_item items
                      ["questions"; "answer_A"; "answer_B"; "category"] []) as H.
    { apply elem_of_for_checked_item. right. eauto. }
    rewrite Hnil in H. by apply elem_of_nil in H.
  - intros Hall. apply elem_of_nil_inv. intros field.
    rewrite elem_of_for_checked_item. intros [?%elem_of_nil|[Hf (item & Hin & Hnone)]]; [done|].
    specialize (Hall item Hin). unfold complete in Hall.
    rewrite forallb_forall in Hall. apply list_elem_of_In, Hall in Hf.
    apply bool_decide_eq_true in Hf as [v Hv]. congruence.
Qed.

Section Structure.

Variable other_eq : json → json → bool.
Variable sorted_other : list json → Checks.py (list json).

Lemma category_set_Return dataset s s' :
  Checks.category_set other_eq dataset s = Checks.Return s' →
  Forall (λ item, is_Some (item !! "category")) dataset.
Proof.
  revert s. induction dataset as [|item dataset IH]; intros s; [by constructor|].
  simpl. unfold Checks.subscript. destruct (item !! "category") as [v|] eqn:E; [|done].
  simpl. destruct (Checks.hash v); [|done]. simpl. intros H%IH.
  constructor; [by exists v|done].
Qed.

(** The run, by the outcome of the two steps that can raise. *)
Lemma analyze_dataset_structure_run dataset :
  Checks.run (Checks.analyze_dataset_structure other_eq sorted_other dataset) =
  match Checks.category_set other_eq dataset [] with
  | Checks.Throw e => (Checks.Throw e, structure_header)
  | Checks.Return categories =>
      let missing_fields :=
        Checks.for_checked_item (take 10 dataset)
          ["questions"; "answer_A"; "answer_B"; "category"] [] in
      let counts := [Checks.TotalQuestions (length dataset);
                     Checks.NumberOfCategories (length categories)] in
      match Checks.sorted sorted_other categories with
      | Checks.Throw e => (Checks.Throw e, structure_header ++ counts)
      | Checks.Return sorted_categories =>
          (Checks.Return
             {| Checks.total_questions := length dataset;
                Checks.categories := categories;
                Checks.num_categories := length categories;
                Checks.missing_fields := missing_fields;
                Checks.required_fields := ["questions"; "answer_A"; "answer_B"; "category"] |},
           structure_header ++ counts ++
             [Checks.Categories sorted_categories;
              match missing_fields with
              | _ :: _ => Checks.MissingFields (list_to_set missing_fields)
              | [] => Checks.Text "✅ All required fields present"
              end])
      end
  end.
Proof.
  unfold Checks.run, Checks.analyze_dataset_structure.
  unfold mbind, Checks.io_bind, Checks.print, Checks.lift, mret, Checks.io_ret.
  cbn [app]. fold structure_header.
  destruct (Checks.category_set other_eq dataset []) as [categories|e]; [|done].
  destruct (Checks.sorted sorted_other categories) as [sorted_categories|e]; [|done].
  by destruct (Checks.for_checked_item _ _ _).
Qed.

End Structure.

Lemma strings_of_strings ss : Checks.strings_of (JString <$> ss) = Some ss.
Proof.
  induction ss as [|s ss IH]; [done|].
  rewrite fmap_cons. cbn [Checks.strings_of]. by rewrite IH.
Qed.

Lemma set_add_strings other_eq c ss :
  Checks.set_add other_eq (JString c) (JString <$> ss) =
  JString <$> (if bool_decide (c ∈ ss) then ss else ss ++ [c]).
Proof.
  unfold Checks.set_add. rewrite existsb_eq_strings.
  destruct (bool_decide (c ∈ ss)); [done|]. by rewrite fmap_app.
Qed.

(** The set of categories of records whose categories are strings. *)
Lemma category_set_strings other_eq dataset ss :
  Forall (λ item, ∃ c, item !! "category" = Some (JString c)) dataset →
  NoDup ss →
  ∃ ss', Checks.category_set other_eq dataset (JString <$> ss)
           = Checks.Return (JString <$> ss') ∧
         NoDup ss' ∧
         ∀ c, c ∈ ss' ↔
              c ∈ ss ∨ ∃ item, item ∈ dataset ∧ item !! "category" = Some (JString c).
Proof.
  intros Hall. revert ss. induction Hall as [|item dataset [c Hc] _ IH]; intros ss Hss.
  - exists ss. split; [done|]. split; [done|]. intros c. split; [by left|].
    by intros [?|(? & ?%elem_of_nil & _)].
  - simpl. unfold Checks.subscript. rewrite Hc. cbn [mbind Checks.py_bind Checks.hash].
    rewrite set_add_strings.
    destruct (IH (if bool_decide (c ∈ ss) then ss else ss ++ [c])) as (ss' & Hrun & Hnd & Hin).
    { destruct (bool_decide_reflect (c ∈ ss)); [done|].
      apply NoDup_app. split; [done|]. split; [|apply NoDup_singleton].
      intros x Hx ->%list_elem_of_singleton. done. }
    exists ss'. split; [done|]. split; [done|]. intros c'. rewrite Hin.
    setoid_rewrite elem_of_cons. destruct (bool_decide_reflect (c ∈ ss)) as [Hc'|Hc'].
    + split; [naive_solver|]. intros [?|(item' & [->|?] & Hi)]; [by left| |naive_solver].
      left. rewrite Hc in Hi. by injection Hi as <-.
    + rewrite elem_of_app, list_elem_of_singleton. split; [naive_solver|].
      intros [?|(item' & [->|?] & Hi)]; [naive_solver| |naive_solver].
      left. right. rewrite Hc in Hi. by injection Hi as <-.
Qed.

Lemma header_no_MissingFields fields : Checks.MissingFields fields ∉ structure_header.
Proof. unfold structure_header. rewrite !not_elem_of_cons. repeat split; try done. apply not_elem_of_nil. Qed.

(** X18.  [analyze_dataset_structure] never reports [category] as a missing
    field, although it is in [required_fields]: the set of categories is
    built first, so a record without [category] ends the function with an
    exception, right after the header. *)
Theorem structure_category_never_reported other_eq sorted_other dataset result out :
  Checks.run (Checks.analyze_dataset_structure other_eq sorted_other dataset) = (result, out) →
  (∀ info, result = Checks.Return info → "category" ∉ Checks.missing_fields info) ∧
  (∀ fields, Checks.MissingFields fields ∈ out → "category" ∉ fields) ∧
  ((∃ item, item ∈ dataset ∧ item !! "category" = None) →
   ∃ e, result = Checks.Throw e ∧ out = structure_header).
Proof.
  rewrite analyze_dataset_structure_run.
  destruct (Checks.category_set other_eq dataset []) as [categories|e] eqn:Hset.
  - pose proof (category_set_Return _ _ _ _ Hset) as Hall.
    assert ("category" ∉ Checks.for_checked_item (take 10 dataset)
              ["questions"; "answer_A"; "answer_B"; "category"] []) as Hnot.
    { rewrite elem_of_for_checked_item.
      intros [?%elem_of_nil|[_ (item & Hin%elem_of_take & Hnone)]]; [done|].
      destruct Hin as (i & Hi%list_elem_of_lookup_2 & _).
      rewrite Forall_forall in Hall. destruct (Hall item Hi) as [v Hv]. congruence. }
    assert (¬ ∃ item, item ∈ dataset ∧ item !! "category" = None) as Hno.
    { intros (item & Hin & Hnone). rewrite Forall_forall in Hall.
      destruct (Hall item Hin) as [v Hv]. congruence. }
    cbn zeta. destruct (Checks.sorted sorted_other categories) as [sorted_categories|e].
    + intros [= <- <-]. split; [by intros info [= <-]|]. split; [|done].
      intros fields H.
      repeat (apply elem_of_cons in H as [H|H]; [try discriminate H|]);
        try (by apply elem_of_nil in H).
      destruct (Checks.for_checked_item _ _ _) eqn:E; [done|].
      injection H as ->. change ("category" ∉ (list_to_set (s :: l) : gset string)).
      by rewrite elem_of_list_to_set.
    + intros [= <- <-]. split; [done|]. split; [|done].
      intros fields H.
      repeat (apply elem_of_cons in H as [H|H]; [try discriminate H|]);
        by apply elem_of_nil in H.
  - intros [= <- <-]. split; [done|]. split; [|by exists e].
    intros fields H. by apply header_no_MissingFields in H.
Qed.

Lemma structure_category_never_reported_witness :
  ∃ e,
    (Checks.run (Checks.analyze_dataset_structure Sample.never_equal Sample.unsorted
                   (Sample.quiz ++ [delete "category" Sample.mad_record]))).1
      = Checks.Throw e ∧
    (Checks.run (Checks.analyze_dataset_structure Sample.never_equal Sample.unsorted
                   (Sample.quiz ++ [delete "category" Sample.mad_record]))).2
      = structure_header.
Proof.
  destruct (structure_category_never_reported Sample.never_equal Sample.unsorted
              (Sample.quiz ++ [delete "category" Sample.mad_record])
              (Checks.run (Checks.analyze_dataset_structure Sample.never_equal
                 Sample.unsorted (Sample.quiz ++ [delete "category" Sample.mad_record]))).1
              (Checks.run (Checks.analyze_dataset_structure Sample.never_equal
                 Sample.unsorted (Sample.quiz ++ [delete "category" Sample.mad_record]))).2)
    as (_ & _ & H).
  - vm_compute. reflexivity.
  - apply H. exists (delete "category" Sample.mad_record). split.
    + apply elem_of_app. right. left.
    + vm_compute. reflexivity.
Defined.

(** X19.  [analyze_dataset_structure] looks for missing fields in the first
    ten records only: when it returns, [missing_fields] is empty, and
    "All required fields present" is printed, exactly when each of the
    first ten records has the four fields, whatever the later records
    lack; [total_questions] is the number of all records. *)
Theorem structure_checks_first_ten_records other_eq sorted_other dataset info out :
  Checks.run (Checks.analyze_dataset_structure other_eq sorted_other dataset)
    = (Checks.Return info, out) →
  (Checks.missing_fields info = [] ↔ Forall (λ item, complete item = true) (take 10 dataset)) ∧
  (Checks.missing_fields info = [] ↔ Checks.Text "✅ All required fields present" ∈ out) ∧
  Checks.total_questions info = length dataset.
Proof.
  rewrite analyze_dataset_structure_run.
  destruct (Checks.category_set other_eq dataset []) as [categories|e]; [|done].
  cbn zeta. destruct (Checks.sorted sorted_other categories) as [sorted_categories|e]; [|done].
  intros [= <- <-]. cbn [Checks.missing_fields Checks.total_questions].
  split; [apply for_checked_item_nil|]. split; [|done].
  destruct (Checks.for_checked_item _ _ _) as [|field missing]; split; try done.
  - intros _. do 6 right. left.
  - intros H. repeat (apply elem_of_cons in H as [H|H]; [try discriminate H|]).
    by apply elem_of_nil in H.
Qed.

Lemma structure_checks_first_ten_records_witness :
  complete (delete "answer_B" Sample.mad_record) = false ∧
  Checks.Text "✅ All required fields present"
    ∈ (Checks.run (Checks.analyze_dataset_structure Sample.never_equal Sample.unsorted
                     Sample.eleven)).2.
Proof.
  split; [vm_compute; reflexivity|].
  destruct (structure_checks_first_ten_records Sample.never_equal Sample.unsorted
              Sample.eleven
              {| Checks.total_questions := 11;
                 Checks.categories := [JString "mad"];
                 Checks.num_categories := 1;
                 Checks.missing_fields := [];
                 Checks.required_fields := ["questions"; "answer_A"; "answer_B"; "category"] |}
              (Checks.run (Checks.analyze_dataset_structure Sample.never_equal
                             Sample.unsorted Sample.eleven)).2)
    as (_ & H & _).
  - vm_compute. reflexivity.
  - by apply H.
Defined.

(** X20.  The loader and the structure analysis together: on any data set
    the loader returns, [analyze_dataset_structure] returns too, counts
    all records, finds no missing field, and its categories are, without
    repetition, the stems of the matched files that have at least one
    line. *)
Theorem load_then_analyze_structure other_eq sorted_other fs data_dir dataset :
  load_hygdk_dataset fs data_dir = Ok dataset →
  ∃ info out,
    Checks.run (Checks.analyze_dataset_structure other_eq sorted_other dataset)
      = (Checks.Return info, out) ∧
    Checks.total_questions info = length dataset ∧
    Checks.missing_fields info = [] ∧
    Checks.num_categories info = length (Checks.categories info) ∧
    NoDup (Checks.categories info) ∧
    ∀ v, v ∈ Checks.categories info ↔
         ∃ name d, (name, d) ∈ Path.glob_jsonl fs data_dir ∧ file_lines d ≠ [] ∧
                   v = JString (Path.stem name).
Proof.
  intros Hload.
  assert (∀ r, r ∈ dataset → ∃ name d line q a b,
             (name, d) ∈ Path.glob_jsonl fs data_dir ∧ line ∈ file_lines d ∧
             r = record q a b (Path.stem name)) as Hrec.
  { intros r Hr. destruct (load_elem_of _ _ _ _ Hload Hr) as (name & d & line & ? & ? & He).
    apply entry_of_line_Ok in He as (m & q & a & b & _ & _ & _ & _ & ->).
    by exists name, d, line, q, a, b. }
  destruct (category_set_strings other_eq dataset []) as (ss & Hset & Hnd & Hin).
  { apply Forall_forall. intros r (name & d & line & q & a & b & _ & _ & ->)%Hrec.
    by exists (Path.stem name). }
  { apply NoDup_nil_2. }
  change (JString <$> []) with (@nil json) in Hset.
  eexists _, _. split.
  { rewrite analyze_dataset_structure_run, Hset. cbn zeta. unfold Checks.sorted.
    rewrite strings_of_strings. reflexivity. }
  cbn [Checks.total_questions Checks.missing_fields Checks.num_categories Checks.categories].
  split; [done|]. split.
  { apply for_checked_item_nil, Forall_take, Forall_forall.
    intros r (name & d & line & q & a & b & _ & _ & ->)%Hrec. reflexivity. }
  split; [done|]. split.
  { apply NoDup_fmap_2; [|done]. by intros ?? [=]. }
  intros v. rewrite list_elem_of_fmap. split.
  - intros (c & -> & [?%elem_of_nil|(r & Hr & Hc)]%Hin); [done|].
    destruct (Hrec r Hr) as (name & d & line & q & a & b & Hg & Hline & ->).
    exists name, d. split; [done|]. split; [by intros Heq; rewrite Heq in Hline; apply elem_of_nil in Hline|].
    vm_compute in Hc. by injection Hc as <-.
  - intros (name & d & Hg & Hlines & ->).
    destruct (file_lines d) as [|line lines] eqn:E; [done|].
    destruct (load_Ok_elem _ _ _ name d line Hload Hg) as (r & Hr & He); [rewrite E; left|].
    exists (Path.stem name). split; [done|]. apply Hin. right. exists r. split; [done|].
    by eapply entry_of_line_category.
Qed.

Lemma load_then_analyze_structure_witness :
  ∃ info out,
    Checks.run (Checks.analyze_dataset_structure Sample.never_equal Sample.unsorted
                  [Sample.mad_record])
      = (Checks.Return info, out) ∧
    Checks.total_questions info = 1 ∧
    Checks.missing_fields info = [] ∧
    Checks.num_categories info = length (Checks.categories info) ∧
    NoDup (Checks.categories info) ∧
    ∀ v, v ∈ Checks.categories info ↔
         ∃ name d, (name, d) ∈ Path.glob_jsonl Sample.mad_fs "data" ∧ file_lines d ≠ [] ∧
                   v = JString (Path.stem name).
Proof.
  apply (load_then_analyze_structure Sample.never_equal Sample.unsorted Sample.mad_fs "data"
           [Sample.mad_record]).
  vm_compute. reflexivity.
Defined.
